(** * Fib.py: the Fibonacci-spiral point generator and its self-test

    A shallow embedding of [get_bounding_box], [generate_fibonacci_points]
    and [test_spiral_dimensions] of [Fib.py].

    Numbers.  A Python [int] is a [Z].  A finite Python [float] is read as
    the real number it denotes: rounding, overflow and signed zeros are left
    out, so every statement below is one of exact real arithmetic.  The two
    infinities that the code itself writes down ([float('inf')] and
    [float('-inf')]) and the not-a-number they can combine to are kept, in
    the type [pyfloat], with the arithmetic and the comparisons Python gives
    them.  A division whose divisor is zero raises [ZeroDivisionError], as in
    Python; the exception records the source line that raised it.

    Range.  With arguments of ordinary size the one place where leaving the
    range of the floats raises an exception is [math.pow] at line 101.  The
    module [FloatRange] embeds the generator a second time with that check,
    to settle what depends on it; it agrees with the first embedding wherever
    the power stays in range.  Underflow, and the overflow of the other
    operations (an angle that is infinite, on which [math.cos] raises), are
    left out of both.

    Effects.  An exception is a value of the error monad [result].  The only
    global the generator reads is [sys.argv], an explicit parameter here.
    What [print] writes is kept as a list of lines. *)

From Stdlib Require Import Reals Lra Lia ZArith String List Bool Sorted Permutation.
Import ListNotations.

Local Open Scope R_scope.

(** ** Exceptions and the error monad *)

Inductive exn : Type :=
| ZeroDivisionError (line : nat)
| ValueError (line : nat)
| OverflowError (line : nat).

Inductive result (A : Type) : Type :=
| Ok (a : A)
| Raise (e : exn).

Arguments Ok {A} a.
Arguments Raise {A} e.

Definition bind {A B : Type} (r : result A) (k : A -> result B) : result B :=
  match r with
  | Ok a => k a
  | Raise e => Raise e
  end.

Notation "x <- r ;; k" := (bind r (fun x => k))
  (at level 61, r at next level, right associativity).


(** ** Python floats *)

Inductive pyfloat : Type :=
| Fin (r : R)
| PInf
| NInf
| NaN.

(** [a < b] on floats: false as soon as one side is not a number. *)
Definition flt (a b : pyfloat) : bool :=
  match a, b with
  | Fin r, Fin s => if Rlt_dec r s then true else false
  | Fin _, PInf | NInf, Fin _ | NInf, PInf => true
  | _, _ => false
  end.

(** [a > b] is [b < a]. *)
Definition fgt (a b : pyfloat) : bool := flt b a.


(** The builtin [min(a, b)]: the first argument unless the second is
    strictly smaller. *)
Definition py_min (a b : pyfloat) : pyfloat := if flt b a then b else a.

(** The builtin [max(a, b)]: the first argument unless the second is
    strictly larger. *)
Definition py_max (a b : pyfloat) : pyfloat := if fgt b a then b else a.

Definition fsub (a b : pyfloat) : pyfloat :=
  match a, b with
  | NaN, _ | _, NaN => NaN
  | Fin r, Fin s => Fin (r - s)
  | Fin _, PInf => NInf
  | Fin _, NInf => PInf
  | PInf, PInf => NaN
  | PInf, _ => PInf
  | NInf, NInf => NaN
  | NInf, _ => NInf
  end.

(** The sign of a real, to give an infinite product or quotient its sign. *)
Definition signed_inf (positive : bool) : pyfloat :=
  if positive then PInf else NInf.

Definition inf_times (positive : bool) (r : R) : pyfloat :=
  if Rlt_dec 0 r then signed_inf positive
  else if Rlt_dec r 0 then signed_inf (negb positive)
  else NaN.

Definition fmul (a b : pyfloat) : pyfloat :=
  match a, b with
  | NaN, _ | _, NaN => NaN
  | Fin r, Fin s => Fin (r * s)
  | Fin r, PInf | PInf, Fin r => inf_times true r
  | Fin r, NInf | NInf, Fin r => inf_times false r
  | PInf, PInf | NInf, NInf => PInf
  | PInf, NInf | NInf, PInf => NInf
  end.

Definition fabs (a : pyfloat) : pyfloat :=
  match a with
  | Fin r => Fin (Rabs r)
  | PInf | NInf => PInf
  | NaN => NaN
  end.

(** [a / b] at source line [line]: a zero divisor raises. *)
Definition fdiv (line : nat) (a b : pyfloat) : result pyfloat :=
  match b with
  | Fin s =>
      if Req_dec_T s 0 then Raise (ZeroDivisionError line)
      else match a with
           | Fin r => Ok (Fin (r / s))
           | PInf => Ok (inf_times true s)
           | NInf => Ok (inf_times false s)
           | NaN => Ok NaN
           end
  | PInf | NInf =>
      match a with
      | Fin _ => Ok (Fin 0)
      | _ => Ok NaN
      end
  | NaN => Ok NaN
  end.

(** Division of two finite floats, the divisor an [int] or a [float]. *)
Definition pydiv (line : nat) (a b : R) : result R :=
  if Req_dec_T b 0 then Raise (ZeroDivisionError line) else Ok (a / b).

(** ** Points *)

(** The script builds its own [Point3D] in test mode and the host's
    [adsk.core.Point3D] otherwise; both expose [x], [y] and [z]. *)
Inductive point : Type :=
| Point3D (x y z : pyfloat)
| adsk_Point3D (x y z : pyfloat).

Definition px (p : point) : pyfloat :=
  match p with Point3D x _ _ | adsk_Point3D x _ _ => x end.
Definition py (p : point) : pyfloat :=
  match p with Point3D _ y _ | adsk_Point3D _ y _ => y end.
Definition pz (p : point) : pyfloat :=
  match p with Point3D _ _ z | adsk_Point3D _ _ z => z end.


(** ['test' in sys.argv] *)
Definition test_in (argv : list string) : bool :=
  existsb (String.eqb "test") argv.

(** ** Builtins over sequences *)

(** [range(n)]: empty when [n <= 0]. *)
Definition range (n : Z) : list Z := map Z.of_nat (seq 0 (Z.to_nat n)).

(** [min(g)] and [max(g)] over a generator [g]: the first item, replaced by
    each later item that is strictly smaller (larger); [ValueError] on an
    empty one. *)
Definition min_of (line : nat) (l : list pyfloat) : result pyfloat :=
  match l with
  | [] => Raise (ValueError line)
  | a :: l' => Ok (fold_left py_min l' a)
  end.

Definition max_of (line : nat) (l : list pyfloat) : result pyfloat :=
  match l with
  | [] => Raise (ValueError line)
  | a :: l' => Ok (fold_left py_max l' a)
  end.

(** ** get_bounding_box *)

Definition get_bounding_box (points : list point)
  : result (pyfloat * pyfloat * pyfloat * pyfloat) :=
  match points with
  | [] => Ok (Fin 0, Fin 0, Fin 0, Fin 0)
  | _ =>
      min_x <- min_of 32 (map px points) ;;
      max_x <- max_of 33 (map px points) ;;
      min_y <- min_of 34 (map py points) ;;
      max_y <- max_of 35 (map py points) ;;
      Ok (min_x, max_x, min_y, max_y)
  end.

(** ** generate_fibonacci_points *)

(** The golden ratio, line 87. *)
Definition phi : R := (1 + sqrt 5) / 2.

(** The state of the first loop (lines 93-110). *)
Record extent : Type := mkExtent {
  unscaled_points : list (R * R);
  min_x : pyfloat;
  max_x : pyfloat;
  min_y : pyfloat;
  max_y : pyfloat
}.

Definition extent0 : extent := mkExtent [] PInf NInf PInf NInf.

(** One iteration of the first loop, lines 100-110. *)
Definition unscaled_step (angle_increment : R) (st : extent) (i : Z) : extent :=
  let angle := IZR i * angle_increment in
  let radius := Rpower phi (2 * angle / PI) in
  let x := radius * cos angle in
  let y := radius * sin angle in
  mkExtent (unscaled_points st ++ [(x, y)])
           (py_min (min_x st) (Fin x))
           (py_max (max_x st) (Fin x))
           (py_min (min_y st) (Fin y))
           (py_max (max_y st) (Fin y)).

Definition unscaled_loop (num_points : Z) (angle_increment : R) : extent :=
  fold_left (unscaled_step angle_increment) (range num_points) extent0.

(** Lines 113-115. *)
Definition max_dimension_of (st : extent) : pyfloat :=
  let width := fsub (max_x st) (min_x st) in
  let height_dim := fsub (max_y st) (min_y st) in
  py_max width height_dim.

(** Lines 129-132: which class the point is built with. *)
Definition make_point (argv : list string) (x y z : pyfloat) : point :=
  if test_in argv then Point3D x y z else adsk_Point3D x y z.

(** One iteration of the second loop, lines 126-135; the state is
    [(points, current_z)]. *)
Definition scaled_step (argv : list string) (scaling_factor : pyfloat)
    (z_increment : R) (st : list point * R) (xy : R * R) : list point * R :=
  let '(points, current_z) := st in
  let '(x, y) := xy in
  let x_scaled := fmul (Fin x) scaling_factor in
  let y_scaled := fmul (Fin y) scaling_factor in
  (points ++ [make_point argv x_scaled y_scaled (Fin current_z)],
   current_z + z_increment).

Definition scaled_loop (argv : list string) (scaling_factor : pyfloat)
    (z_increment : R) (unscaled : list (R * R)) : list point * R :=
  fold_left (scaled_step argv scaling_factor z_increment) unscaled ([], 0).

Definition generate_fibonacci_points (argv : list string) (num_points : Z)
    (scale turns height : R) : result (list point) :=
  angle_increment <- pydiv 90 (2 * PI * turns) (IZR num_points) ;;
  let st := unscaled_loop num_points angle_increment in
  let max_dimension := max_dimension_of st in
  scaling_factor <- fdiv 118 (Fin scale) max_dimension ;;
  z_increment <- (if (0 <? num_points)%Z
                  then pydiv 121 height (IZR num_points)
                  else Ok 0) ;;
  Ok (fst (scaled_loop argv scaling_factor z_increment (unscaled_points st))).

(** The unscaled extent that line 115 computes, when line 90 did not raise. *)
Definition unscaled_max_dimension (num_points : Z) (turns : R) : result pyfloat :=
  angle_increment <- pydiv 90 (2 * PI * turns) (IZR num_points) ;;
  Ok (max_dimension_of (unscaled_loop num_points angle_increment)).

(** ** generate_fibonacci_points, with the range check of math.pow *)

Module FloatRange.

(** The least real that rounds to infinity in binary64. *)
Definition overflow_threshold : R := 2 ^ 1024 - 2 ^ 970.

(** [math.pow(x, y)] at source line [line], for a positive [x] (the script
    only raises [phi]): [OverflowError] when the result leaves the range of
    the floats. *)
Definition math_pow (line : nat) (x y : R) : result R :=
  if Rle_dec overflow_threshold (Rpower x y)
  then Raise (OverflowError line)
  else Ok (Rpower x y).

(** One iteration of the first loop, lines 100-110. *)
Definition unscaled_step (angle_increment : R) (st : extent) (i : Z)
  : result extent :=
  let angle := IZR i * angle_increment in
  radius <- math_pow 101 phi (2 * angle / PI) ;;
  let x := radius * cos angle in
  let y := radius * sin angle in
  Ok (mkExtent (unscaled_points st ++ [(x, y)])
               (py_min (min_x st) (Fin x))
               (py_max (max_x st) (Fin x))
               (py_min (min_y st) (Fin y))
               (py_max (max_y st) (Fin y))).

(** The first loop over the indices that are left; an exception ends it. *)
Fixpoint unscaled_loop_from (angle_increment : R) (indices : list Z)
    (st : extent) : result extent :=
  match indices with
  | [] => Ok st
  | i :: rest =>
      st' <- unscaled_step angle_increment st i ;;
      unscaled_loop_from angle_increment rest st'
  end.

Definition unscaled_loop (num_points : Z) (angle_increment : R) : result extent :=
  unscaled_loop_from angle_increment (range num_points) extent0.

Definition generate_fibonacci_points (argv : list string) (num_points : Z)
    (scale turns height : R) : result (list point) :=
  angle_increment <- pydiv 90 (2 * PI * turns) (IZR num_points) ;;
  st <- unscaled_loop num_points angle_increment ;;
  let max_dimension := max_dimension_of st in
  scaling_factor <- fdiv 118 (Fin scale) max_dimension ;;
  z_increment <- (if (0 <? num_points)%Z
                  then pydiv 121 height (IZR num_points)
                  else Ok 0) ;;
  Ok (fst (scaled_loop argv scaling_factor z_increment (unscaled_points st))).

(** The unscaled extent that line 115 computes, when nothing raised before. *)
Definition unscaled_max_dimension (num_points : Z) (turns : R) : result pyfloat :=
  angle_increment <- pydiv 90 (2 * PI * turns) (IZR num_points) ;;
  st <- unscaled_loop num_points angle_increment ;;
  Ok (max_dimension_of st).

End FloatRange.

(** ** test_spiral_dimensions *)

(** Lines 53-55, on the box of line 51. *)
Definition planar_max_dimension (points : list point) : result pyfloat :=
  bb <- get_bounding_box points ;;
  let '(min_x, max_x, min_y, max_y) := bb in
  let width := fsub max_x min_x in
  let height_dim := fsub max_y min_y in
  Ok (py_max width height_dim).

(** Lines 68-70. *)
Definition z_range (points : list point) : result pyfloat :=
  min_z <- min_of 68 (map pz points) ;;
  max_z <- max_of 69 (map pz points) ;;
  Ok (fsub max_z min_z).

(** What [print] writes: one constructor per format string, holding the
    values it interpolates. *)
Inductive printed : Type :=
| FailedForScale (scale turns height : R)
| ExpectedMaxDimension (scale : R)
| ActualMaxDimension (max_dimension : pyfloat)
| BoundingBox (width height_dim : pyfloat)
| FailedForHeight (height : R)
| ExpectedHeight (height : R)
| ActualHeight (actual_height : pyfloat)
| ZRange (min_z max_z : pyfloat)
| AllTestsPassed.

Definition test_case : Type := (Z * R * R * R)%type.

Definition test_cases : list test_case :=
  [ (100%Z, 100, 1, 0);
    (200%Z, 50, 2, 0);
    (50%Z, 200, 5 / 10, 0);
    (100%Z, 100, 1, 50);
    (50%Z, 100, 1, 25) ].

(** The body of the loop of lines 49-77: [Some out] when the case fails,
    [out] being what was printed before [return False]; [None] when the loop
    goes on to the next case. *)
Definition test_case_body (argv : list string) (c : test_case)
  : result (option (list printed)) :=
  let '(num_points, scale, turns, height) := c in
  points <- generate_fibonacci_points argv num_points scale turns height ;;
  bb <- get_bounding_box points ;;
  let '(min_x, max_x, min_y, max_y) := bb in
  let width := fsub max_x min_x in
  let height_dim := fsub max_y min_y in
  let max_dimension := py_max width height_dim in
  let tolerance := scale * (1 / 100) in
  if fgt (fabs (fsub max_dimension (Fin scale))) (Fin tolerance) then
    Ok (Some [ FailedForScale scale turns height;
               ExpectedMaxDimension scale;
               ActualMaxDimension max_dimension;
               BoundingBox width height_dim ])
  else if Rlt_dec 0 height then
    min_z <- min_of 68 (map pz points) ;;
    max_z <- max_of 69 (map pz points) ;;
    let actual_height := fsub max_z min_z in
    if fgt (fabs (fsub actual_height (Fin height))) (Fin tolerance) then
      Ok (Some [ FailedForHeight height;
                 ExpectedHeight height;
                 ActualHeight actual_height;
                 ZRange min_z max_z ])
    else Ok None
  else Ok None.

(** The loop of line 49 over a table, then lines 79-80: what was printed and
    the value returned. *)
Fixpoint test_loop (argv : list string) (cases : list test_case)
  : result (list printed * bool) :=
  match cases with
  | [] => Ok ([AllTestsPassed], true)
  | c :: rest =>
      r <- test_case_body argv c ;;
      match r with
      | Some out => Ok (out, false)
      | None => test_loop argv rest
      end
  end.

Definition test_spiral_dimensions (argv : list string)
  : result (list printed * bool) :=
  test_loop argv test_cases.

(** ** The command handlers

    The handlers of lines 141-250 talk to the host application through the
    [adsk] API, which is not part of the script.  What the host hands over
    (the values of the command inputs, whether there is an active document,
    whether [ui] is there) is a parameter; each call made into the host is
    recorded, in order, as a [host_call], and is taken to succeed. *)

(** [int(x)] on a finite float: truncation towards zero. *)
Definition py_int (x : R) : Z :=
  if Rle_dec 0 x then Int_part x else (- Int_part (- x))%Z.

(** The bounds [CommandCreatedHandler.notify] declares on a value input. *)
Record value_range : Type := mkRange {
  minimumValue : R;
  maximumValue : R
}.

(** Lines 151-153, 156-158, 161-163 and 166-168. *)
Definition num_points_range : value_range := mkRange 10 1000.
Definition scale_range : value_range := mkRange (1 / 10) 1000.
Definition turns_range : value_range := mkRange (1 / 10) 10.
Definition height_range : value_range := mkRange 0 1000.

Definition in_range (r : value_range) (v : R) : Prop :=
  minimumValue r <= v <= maximumValue r.

(** What [inputs.itemById(...).value] gives, lines 197-201. *)
Record command_inputs : Type := mkInputs {
  value_num_points : R;
  value_scale : R;
  value_turns : R;
  value_height : R;
  value_use_splines : bool
}.

Definition within_declared_ranges (inputs : command_inputs) : Prop :=
  in_range num_points_range (value_num_points inputs)
  /\ in_range scale_range (value_scale inputs)
  /\ in_range turns_range (value_turns inputs)
  /\ in_range height_range (value_height inputs).

(** The truth values of [ui] and of [app.activeDocument]. *)
Record host : Type := mkHost {
  ui : bool;
  activeDocument : bool
}.

(** What can end the [try] block of [CommandExecuteHandler.notify]: an
    exception of the generator, or [ui.messageBox] on a [ui] that is not
    there. *)
Inductive notify_exn : Type :=
| GeneratorError (e : exn)
| AttributeError (line : nat).

Inductive message : Type :=
| NoActiveDocument
| Failed (e : notify_exn).

Inductive host_call : Type :=
| messageBox (text : message)
| sketches_add
| sketchFittedSplines_add (point_collection : list point)
| sketchLines_addByTwoPoints (p q : point)
| set_isComputeDeferred (b : bool).

(** Lines 222-224: the collection, filled point by point. *)
Definition collect (points : list point) : list point :=
  fold_left (fun point_collection point => point_collection ++ [point]) points [].

(** Lines 230-231: a line from [points[i]] to [points[i + 1]] for each [i]
    of [range(len(points) - 1)]. *)
Definition draw_lines (points : list point) : list host_call :=
  flat_map
    (fun i =>
       match nth_error points (Z.to_nat i), nth_error points (Z.to_nat (i + 1)) with
       | Some p, Some q => [sketchLines_addByTwoPoints p q]
       | _, _ => []
       end)
    (range (Z.of_nat (length points) - 1)).

(** The [try] block, lines 193-234: the calls made into the host, and the
    exception that ended the block, if one did. *)
Definition execute_body (argv : list string) (h : host) (inputs : command_inputs)
  : list host_call * option notify_exn :=
  let num_points := py_int (value_num_points inputs) in
  let scale := value_scale inputs in
  let turns := value_turns inputs in
  let height := value_height inputs in
  let use_splines := value_use_splines inputs in
  if negb (activeDocument h) then
    if ui h then ([messageBox NoActiveDocument], None)
    else ([], Some (AttributeError 206))
  else
    match generate_fibonacci_points argv num_points scale turns height with
    | Raise e => ([sketches_add], Some (GeneratorError e))
    | Ok points =>
        let drawn :=
          if use_splines then [sketchFittedSplines_add (collect points)]
          else draw_lines points in
        (sketches_add :: drawn ++ [set_isComputeDeferred false], None)
    end.

(** [CommandExecuteHandler.notify], lines 191-238: the [try] block, and the
    bare [except] that reports in a message box when [ui] is there. *)
Definition execute_notify (argv : list string) (h : host) (inputs : command_inputs)
  : list host_call :=
  let '(calls, raised) := execute_body argv h inputs in
  match raised with
  | None => calls
  | Some e => if ui h then calls ++ [messageBox (Failed e)] else calls
  end.

(** The consecutive pairs of a list. *)
Fixpoint consecutive {A : Type} (l : list A) : list (A * A) :=
  match l with
  | p :: (q :: _) as rest => (p, q) :: consecutive rest
  | _ => []
  end.

(** ** Vocabulary of the statements *)

(** [m] is a least (greatest) element of [l]. *)
Definition is_min (m : R) (l : list R) : Prop :=
  In m l /\ forall x, In x l -> m <= x.

Definition is_max (m : R) (l : list R) : Prop :=
  In m l /\ forall x, In x l -> x <= m.

(** The unscaled point of index [i], lines 100-103. *)
Definition unscaled_point (angle_increment : R) (i : Z) : R * R :=
  let angle := IZR i * angle_increment in
  let radius := Rpower phi (2 * angle / PI) in
  (radius * cos angle, radius * sin angle).

(** The points the second loop appends when it starts at height [z]. *)
Fixpoint scaled_from (argv : list string) (scaling_factor : pyfloat)
    (z_increment : R) (unscaled : list (R * R)) (z : R) : list point :=
  match unscaled with
  | [] => []
  | (x, y) :: rest =>
      make_point argv (fmul (Fin x) scaling_factor) (fmul (Fin y) scaling_factor) (Fin z)
      :: scaled_from argv scaling_factor z_increment rest (z + z_increment)
  end.

(** The heights [z], [z + z_increment], [z + z_increment + z_increment],
    and so on, [k] of them. *)
Fixpoint ramp (z_increment : R) (k : nat) (z : R) : list R :=
  match k with
  | O => []
  | S k' => z :: ramp z_increment k' (z + z_increment)
  end.

(** A call returns, and what holds of its value whenever it does. *)
Definition returns {A : Type} (r : result A) : Prop := exists a, r = Ok a.

Definition on_return {A : Type} (r : result A) (P : A -> Prop) : Prop :=
  forall a, r = Ok a -> P a.

(** [x] is within [tolerance] of [target]. *)
Definition within (tolerance target : R) (x : pyfloat) : Prop :=
  exists v, x = Fin v /\ Rabs (v - target) <= tolerance.


(** A case of the table passes: the larger side of the box of the sequence
    generated is within 1% of [scale] of [scale] and, when [height > 0], the
    z-range is within 1% of [scale] of [height]. *)
Definition case_within_tolerance (argv : list string) (c : test_case) : Prop :=
  let '(num_points, scale, turns, height) := c in
  exists points,
    generate_fibonacci_points argv num_points scale turns height = Ok points
    /\ (exists d, planar_max_dimension points = Ok d
                  /\ within (scale * (1 / 100)) scale d)
    /\ (0 < height ->
        exists zr, z_range points = Ok zr
                   /\ within (scale * (1 / 100)) height zr).

(** What was printed is the report of a failed case. *)
Definition is_failure_report (out : list printed) : Prop :=
  match out with
  | FailedForScale _ _ _ :: _ | FailedForHeight _ :: _ => ~ In AllTestsPassed out
  | _ => False
  end.

(** A case the generator returns on, with a positive [scale]. *)
Definition regular (c : test_case) : Prop :=
  let '(num_points, scale, turns, height) := c in
  (2 <= num_points)%Z /\ turns <> 0 /\ 0 < scale.

(** The point [p] with its planar coordinates multiplied by [c]. *)
Definition scale_xy (c : R) (p : point) : point :=
  match p with
  | Point3D x y z => Point3D (fmul (Fin c) x) (fmul (Fin c) y) z
  | adsk_Point3D x y z => adsk_Point3D (fmul (Fin c) x) (fmul (Fin c) y) z
  end.

(** The three coordinates of [p] are the finite numbers [x], [y], [z]. *)
Definition at_position (p : point) (x y z : R) : Prop :=
  px p = Fin x /\ py p = Fin y /\ pz p = Fin z.

(** The class a point was built with. *)
Definition built_by_script (p : point) : bool :=
  match p with Point3D _ _ _ => true | adsk_Point3D _ _ _ => false end.

(** The planar coordinates of [p] are finite numbers. *)
Definition planar_finite (p : point) : Prop :=
  exists x y, px p = Fin x /\ py p = Fin y.

(** * Properties *)

(** ** The builtins on finite floats *)

Lemma py_min_Fin (a b : R) : py_min (Fin a) (Fin b) = Fin (if Rlt_dec b a then b else a).
Proof. unfold py_min; simpl; destruct (Rlt_dec b a); reflexivity. Qed.

Lemma py_max_Fin (a b : R) : py_max (Fin a) (Fin b) = Fin (if Rlt_dec a b then b else a).
Proof. unfold py_max, fgt; simpl; destruct (Rlt_dec a b); reflexivity. Qed.

Lemma py_min_PInf (x : R) : py_min PInf (Fin x) = Fin x.
Proof. reflexivity. Qed.

Lemma py_max_NInf (x : R) : py_max NInf (Fin x) = Fin x.
Proof. reflexivity. Qed.

Lemma is_min_unique (l : list R) (m m' : R) : is_min m l -> is_min m' l -> m = m'.
Proof.
  intros [Hin Hle] [Hin' Hle'].
  apply Rle_antisym; [apply Hle | apply Hle']; assumption.
Qed.

Lemma is_max_unique (l : list R) (m m' : R) : is_max m l -> is_max m' l -> m = m'.
Proof.
  intros [Hin Hle] [Hin' Hle'].
  apply Rle_antisym; [apply Hle' | apply Hle]; assumption.
Qed.

Lemma is_min_scale (k : R) (l : list R) (m : R) :
  0 < k -> is_min m l -> is_min (m * k) (map (fun x => x * k) l).
Proof.
  intros Hk [Hin Hle]; split.
  - apply (in_map (fun x => x * k)); assumption.
  - intros x Hx. apply in_map_iff in Hx. destruct Hx as [x0 [<- Hx0]].
    apply Rmult_le_compat_r; [lra | apply Hle; assumption].
Qed.

Lemma is_max_scale (k : R) (l : list R) (m : R) :
  0 < k -> is_max m l -> is_max (m * k) (map (fun x => x * k) l).
Proof.
  intros Hk [Hin Hle]; split.
  - apply (in_map (fun x => x * k)); assumption.
  - intros x Hx. apply in_map_iff in Hx. destruct Hx as [x0 [<- Hx0]].
    apply Rmult_le_compat_r; [lra | apply Hle; assumption].
Qed.

(** Folding [min] over finite floats from a finite start gives a least
    element of the whole. *)
Lemma fold_py_min_Fin (l : list R) :
  forall a, exists m, fold_left py_min (map Fin l) (Fin a) = Fin m /\ is_min m (a :: l).
Proof.
  induction l as [|b l IH]; intros a; simpl.
  - exists a; split; [reflexivity|]. split; [left; reflexivity|].
    intros x [<-|[]]; lra.
  - rewrite py_min_Fin.
    destruct (IH (if Rlt_dec b a then b else a)) as [m [Hm [Hin Hle]]].
    exists m; split; [exact Hm|].
    assert (Hc : m <= (if Rlt_dec b a then b else a)) by (apply Hle; left; reflexivity).
    split.
    + destruct Hin as [Hin|Hin]; [|right; right; exact Hin].
      destruct (Rlt_dec b a); [right; left | left]; exact Hin.
    + intros x [<-|[<-|Hx]].
      * destruct (Rlt_dec b a); lra.
      * destruct (Rlt_dec b a); lra.
      * apply Hle; right; exact Hx.
Qed.

Lemma fold_py_max_Fin (l : list R) :
  forall a, exists m, fold_left py_max (map Fin l) (Fin a) = Fin m /\ is_max m (a :: l).
Proof.
  induction l as [|b l IH]; intros a; simpl.
  - exists a; split; [reflexivity|]. split; [left; reflexivity|].
    intros x [<-|[]]; lra.
  - rewrite py_max_Fin.
    destruct (IH (if Rlt_dec a b then b else a)) as [m [Hm [Hin Hle]]].
    exists m; split; [exact Hm|].
    assert (Hc : (if Rlt_dec a b then b else a) <= m) by (apply Hle; left; reflexivity).
    split.
    + destruct Hin as [Hin|Hin]; [|right; right; exact Hin].
      destruct (Rlt_dec a b); [right; left | left]; exact Hin.
    + intros x [<-|[<-|Hx]].
      * destruct (Rlt_dec a b); lra.
      * destruct (Rlt_dec a b); lra.
      * apply Hle; right; exact Hx.
Qed.

Lemma min_of_Fin (line : nat) (l : list R) :
  l <> [] -> exists m, min_of line (map Fin l) = Ok (Fin m) /\ is_min m l.
Proof.
  destruct l as [|a l]; [congruence|]. intros _. simpl.
  destruct (fold_py_min_Fin l a) as [m [Hm Hmin]].
  exists m; rewrite Hm; split; [reflexivity | exact Hmin].
Qed.

Lemma max_of_Fin (line : nat) (l : list R) :
  l <> [] -> exists m, max_of line (map Fin l) = Ok (Fin m) /\ is_max m l.
Proof.
  destruct l as [|a l]; [congruence|]. intros _. simpl.
  destruct (fold_py_max_Fin l a) as [m [Hm Hmax]].
  exists m; rewrite Hm; split; [reflexivity | exact Hmax].
Qed.

(** ** The first loop *)

Lemma unscaled_fold (ai : R) (l : list Z) :
  forall st,
    fold_left (unscaled_step ai) l st =
    mkExtent
      (unscaled_points st ++ map (unscaled_point ai) l)
      (fold_left py_min (map Fin (map fst (map (unscaled_point ai) l))) (min_x st))
      (fold_left py_max (map Fin (map fst (map (unscaled_point ai) l))) (max_x st))
      (fold_left py_min (map Fin (map snd (map (unscaled_point ai) l))) (min_y st))
      (fold_left py_max (map Fin (map snd (map (unscaled_point ai) l))) (max_y st)).
Proof.
  induction l as [|i l IH]; intros st; simpl.
  - rewrite app_nil_r. destruct st; reflexivity.
  - rewrite IH. unfold unscaled_step at 1 2 3 4 5; simpl.
    rewrite <- app_assoc. reflexivity.
Qed.

Lemma range_nonpos (n : Z) : (n <= 0)%Z -> range n = [].
Proof.
  intros Hn. unfold range.
  replace (Z.to_nat n) with 0%nat by lia. reflexivity.
Qed.

Lemma range_length (n : Z) : length (range n) = Z.to_nat n.
Proof. unfold range. rewrite length_map, length_seq. reflexivity. Qed.

Lemma range_pos (n : Z) :
  (0 < n)%Z -> range n = 0%Z :: map Z.of_nat (seq 1 (Z.to_nat n - 1)).
Proof.
  intros Hn. unfold range.
  replace (Z.to_nat n) with (S (Z.to_nat n - 1)) at 1 by lia. reflexivity.
Qed.

Lemma range_two (n : Z) :
  (2 <= n)%Z -> range n = 0%Z :: 1%Z :: map Z.of_nat (seq 2 (Z.to_nat n - 2)).
Proof.
  intros Hn. unfold range.
  replace (Z.to_nat n) with (S (S (Z.to_nat n - 2))) at 1 by lia. reflexivity.
Qed.

Lemma unscaled_loop_empty (n : Z) (ai : R) : (n <= 0)%Z -> unscaled_loop n ai = extent0.
Proof. intros Hn. unfold unscaled_loop. rewrite range_nonpos by exact Hn. reflexivity. Qed.

Lemma unscaled_loop_points (n : Z) (ai : R) :
  unscaled_points (unscaled_loop n ai) = map (unscaled_point ai) (range n).
Proof. unfold unscaled_loop. rewrite unscaled_fold. reflexivity. Qed.

(** After at least one iteration the four bounds are finite and are the
    extrema of the coordinates generated. *)
Lemma unscaled_loop_extent (n : Z) (ai : R) :
  (0 < n)%Z ->
  exists mx Mx my My,
    unscaled_loop n ai =
      mkExtent (map (unscaled_point ai) (range n)) (Fin mx) (Fin Mx) (Fin my) (Fin My)
    /\ is_min mx (map fst (map (unscaled_point ai) (range n)))
    /\ is_max Mx (map fst (map (unscaled_point ai) (range n)))
    /\ is_min my (map snd (map (unscaled_point ai) (range n)))
    /\ is_max My (map snd (map (unscaled_point ai) (range n))).
Proof.
  intros Hn. unfold unscaled_loop. rewrite unscaled_fold.
  rewrite (range_pos n Hn).
  set (l0 := map Z.of_nat (seq 1 (Z.to_nat n - 1))).
  cbn [map fold_left extent0 unscaled_points min_x max_x min_y max_y app].
  set (l := map (unscaled_point ai) l0).
  set (p0 := unscaled_point ai 0).
  destruct (fold_py_min_Fin (map fst l) (fst p0)) as [mx [Emx Hmx]].
  destruct (fold_py_max_Fin (map fst l) (fst p0)) as [Mx [EMx HMx]].
  destruct (fold_py_min_Fin (map snd l) (snd p0)) as [my [Emy Hmy]].
  destruct (fold_py_max_Fin (map snd l) (snd p0)) as [My [EMy HMy]].
  exists mx, Mx, my, My.
  rewrite py_min_PInf, py_max_NInf, py_min_PInf, py_max_NInf.
  rewrite Emx, EMx, Emy, EMy.
  repeat split; try reflexivity; try apply Hmx; try apply HMx; try apply Hmy; try apply HMy.
Qed.

(** ** The golden ratio and the radius *)

Lemma phi_gt_1 : 1 < phi.
Proof.
  unfold phi.
  assert (H : 1 < sqrt 5).
  { rewrite <- sqrt_1 at 1. apply sqrt_lt_1_alt. lra. }
  lra.
Qed.

Lemma ln_phi_pos : 0 < ln phi.
Proof. rewrite <- ln_1. apply ln_increasing; [lra | apply phi_gt_1]. Qed.

Lemma Rpower_phi_0 : Rpower phi 0 = 1.
Proof. unfold Rpower. rewrite Rmult_0_l. apply exp_0. Qed.

Lemma Rpower_phi_eq_1 (e : R) : Rpower phi e = 1 -> e = 0.
Proof.
  unfold Rpower. intros H. rewrite <- exp_0 in H. apply exp_inv in H.
  pose proof ln_phi_pos as Hl. nra.
Qed.

Lemma unscaled_point_0 (ai : R) : unscaled_point ai 0 = (1, 0).
Proof.
  unfold unscaled_point. simpl.
  replace (2 * (0 * ai) / PI) with 0 by (unfold Rdiv; ring).
  rewrite Rmult_0_l, Rpower_phi_0, cos_0, sin_0. f_equal; ring.
Qed.

(** The point of index 1 is not the point of index 0, unless the angle does
    not advance. *)
Lemma unscaled_point_1_neq (ai : R) : ai <> 0 -> unscaled_point ai 1 <> (1, 0).
Proof.
  intros Hai H. unfold unscaled_point in H. simpl in H.
  rewrite Rmult_1_l in H.
  set (r := Rpower phi (2 * ai / PI)) in *.
  injection H as Hx Hy.
  assert (Hr : 0 < r) by (unfold r, Rpower; apply exp_pos).
  assert (Hs : sin ai = 0) by nra.
  assert (Hc : cos ai = / r).
  { apply Rmult_eq_reg_l with r; [|lra]. rewrite Rinv_r by lra. exact Hx. }
  pose proof (sin2_cos2 ai) as H1. unfold Rsqr in H1.
  rewrite Hs, Hc in H1.
  assert (Hr1 : r = 1).
  { assert (Hi : / r * / r = 1) by lra.
    assert (Hip : 0 < / r) by (apply Rinv_0_lt_compat; exact Hr).
    assert (Hi1 : / r = 1) by nra.
    rewrite <- (Rinv_inv r). rewrite Hi1. apply Rinv_1. }
  apply Rpower_phi_eq_1 in Hr1.
  pose proof PI_RGT_0 as Hpi.
  apply Hai.
  assert (H2 : 2 * ai / PI * PI = 0) by (rewrite Hr1; ring).
  unfold Rdiv in H2. rewrite Rmult_assoc, Rinv_l in H2 by lra. lra.
Qed.

(** ** The unscaled extent *)

Lemma if_Rlt_Rmax (a b : R) : (if Rlt_dec a b then b else a) = Rmax a b.
Proof.
  unfold Rmax. destruct (Rlt_dec a b), (Rle_dec a b); lra.
Qed.

Lemma is_min_le_max (l : list R) (m M : R) : is_min m l -> is_max M l -> m <= M.
Proof. intros [Hin _] [_ Hle]. apply Hle; exact Hin. Qed.

(** With two distinct points generated, the larger side of the box is
    positive. *)
Lemma extent_positive (pts : list (R * R)) (p q : R * R) (mx Mx my My : R) :
  In p pts -> In q pts -> p <> q ->
  is_min mx (map fst pts) -> is_max Mx (map fst pts) ->
  is_min my (map snd pts) -> is_max My (map snd pts) ->
  0 < Rmax (Mx - mx) (My - my).
Proof.
  intros Hp Hq Hpq [_ Hmx] [_ HMx] [_ Hmy] [_ HMy].
  assert (Hfp := in_map fst _ _ Hp). assert (Hfq := in_map fst _ _ Hq).
  assert (Hsp := in_map snd _ _ Hp). assert (Hsq := in_map snd _ _ Hq).
  pose proof (Hmx _ Hfp). pose proof (Hmx _ Hfq).
  pose proof (HMx _ Hfp). pose proof (HMx _ Hfq).
  pose proof (Hmy _ Hsp). pose proof (Hmy _ Hsq).
  pose proof (HMy _ Hsp). pose proof (HMy _ Hsq).
  destruct p as [px0 py0], q as [qx qy]; simpl in *.
  destruct (Req_dec px0 qx) as [Ex|Nx].
  - destruct (Req_dec py0 qy) as [Ey|Ny].
    + exfalso; apply Hpq; congruence.
    + apply Rlt_le_trans with (My - my); [|apply Rmax_r].
      destruct (Rtotal_order py0 qy) as [?|[?|?]]; lra.
  - apply Rlt_le_trans with (Mx - mx); [|apply Rmax_l].
    destruct (Rtotal_order px0 qx) as [?|[?|?]]; lra.
Qed.

Lemma angle_increment_ok (n : Z) (turns : R) :
  n <> 0%Z -> pydiv 90 (2 * PI * turns) (IZR n) = Ok (2 * PI * turns / IZR n).
Proof.
  intros Hn. unfold pydiv.
  destruct (Req_dec_T (IZR n) 0) as [E|_]; [|reflexivity].
  exfalso. apply eq_IZR_R0 in E. contradiction.
Qed.

Lemma angle_increment_neq_0 (n : Z) (turns : R) :
  n <> 0%Z -> turns <> 0 -> 2 * PI * turns / IZR n <> 0.
Proof.
  intros Hn Ht E.
  assert (Hz : IZR n <> 0) by (intros E0; apply eq_IZR_R0 in E0; contradiction).
  pose proof PI_RGT_0 as Hpi.
  assert (E1 : 2 * PI * turns / IZR n * IZR n = 0) by (rewrite E; ring).
  unfold Rdiv in E1. rewrite Rmult_assoc, Rinv_l in E1 by exact Hz.
  apply Ht. nra.
Qed.

(** The extent of the first loop, for at least one point: a finite,
    non-negative number, the larger side of the box of the unscaled points. *)
Lemma max_dimension_finite (n : Z) (ai : R) :
  (0 < n)%Z ->
  exists mx Mx my My,
    max_dimension_of (unscaled_loop n ai) = Fin (Rmax (Mx - mx) (My - my))
    /\ 0 <= Rmax (Mx - mx) (My - my)
    /\ is_min mx (map fst (map (unscaled_point ai) (range n)))
    /\ is_max Mx (map fst (map (unscaled_point ai) (range n)))
    /\ is_min my (map snd (map (unscaled_point ai) (range n)))
    /\ is_max My (map snd (map (unscaled_point ai) (range n))).
Proof.
  intros Hn.
  destruct (unscaled_loop_extent n ai Hn) as [mx [Mx [my [My [E [Hmx [HMx [Hmy HMy]]]]]]]].
  exists mx, Mx, my, My. rewrite E. unfold max_dimension_of; simpl.
  rewrite py_max_Fin, if_Rlt_Rmax.
  repeat split; try apply Hmx; try apply HMx; try apply Hmy; try apply HMy.
  pose proof (is_min_le_max _ _ _ Hmx HMx).
  apply Rle_trans with (Mx - mx); [lra | apply Rmax_l].
Qed.

Lemma max_dimension_positive (n : Z) (ai : R) :
  (2 <= n)%Z -> ai <> 0 ->
  exists d, max_dimension_of (unscaled_loop n ai) = Fin d /\ 0 < d.
Proof.
  intros Hn Hai.
  destruct (max_dimension_finite n ai) as [mx [Mx [my [My [E [_ [Hmx [HMx [Hmy HMy]]]]]]]]]; [lia|].
  exists (Rmax (Mx - mx) (My - my)); split; [exact E|].
  apply (extent_positive (map (unscaled_point ai) (range n))
           (unscaled_point ai 0) (unscaled_point ai 1)); try assumption.
  - rewrite (range_two n Hn). left; reflexivity.
  - rewrite (range_two n Hn). right; left; reflexivity.
  - rewrite unscaled_point_0. intros E1. symmetry in E1.
    revert E1. apply unscaled_point_1_neq. exact Hai.
Qed.

(** With a single point the box is a point. *)
Lemma max_dimension_one (ai : R) : max_dimension_of (unscaled_loop 1 ai) = Fin 0.
Proof.
  unfold unscaled_loop, range. simpl.
  unfold unscaled_step, max_dimension_of; simpl.
  rewrite py_max_Fin, if_Rlt_Rmax.
  rewrite !Rminus_diag. rewrite Rmax_left by lra. reflexivity.
Qed.

(** With no point the bounds stay at the infinities they start from. *)
Lemma max_dimension_none (n : Z) (ai : R) :
  (n <= 0)%Z -> max_dimension_of (unscaled_loop n ai) = NInf.
Proof. intros Hn. rewrite unscaled_loop_empty by exact Hn. reflexivity. Qed.

(** ** The second loop *)

Section ScaledLoop.

Variable argv : list string.
Variable scaling_factor : pyfloat.
Variable z_increment : R.

Local Abbreviation scaled_from := (scaled_from argv scaling_factor z_increment).
Local Abbreviation ramp := (ramp z_increment).

Lemma scaled_fold (unscaled : list (R * R)) :
  forall points z,
    fst (fold_left (scaled_step argv scaling_factor z_increment) unscaled (points, z))
    = points ++ scaled_from unscaled z.
Proof.
  induction unscaled as [|[x y] rest IH]; intros points z; simpl.
  - rewrite app_nil_r. reflexivity.
  - rewrite IH, <- app_assoc. reflexivity.
Qed.

Lemma scaled_loop_from (unscaled : list (R * R)) :
  fst (scaled_loop argv scaling_factor z_increment unscaled) = scaled_from unscaled 0.
Proof. unfold scaled_loop. rewrite scaled_fold. reflexivity. Qed.

Lemma scaled_from_length (unscaled : list (R * R)) :
  forall z, length (scaled_from unscaled z) = length unscaled.
Proof.
  induction unscaled as [|[x y] rest IH]; intros z; simpl; [|rewrite IH]; reflexivity.
Qed.

Lemma px_make_point (x y z : pyfloat) : px (make_point argv x y z) = x.
Proof. unfold make_point. destruct (test_in argv); reflexivity. Qed.

Lemma py_make_point (x y z : pyfloat) : py (make_point argv x y z) = y.
Proof. unfold make_point. destruct (test_in argv); reflexivity. Qed.

Lemma pz_make_point (x y z : pyfloat) : pz (make_point argv x y z) = z.
Proof. unfold make_point. destruct (test_in argv); reflexivity. Qed.

Lemma scaled_from_px (unscaled : list (R * R)) :
  forall z, map px (scaled_from unscaled z)
            = map (fun x => fmul (Fin x) scaling_factor) (map fst unscaled).
Proof.
  induction unscaled as [|[x y] rest IH]; intros z; simpl; [reflexivity|].
  rewrite px_make_point, IH. reflexivity.
Qed.

Lemma scaled_from_py (unscaled : list (R * R)) :
  forall z, map py (scaled_from unscaled z)
            = map (fun y => fmul (Fin y) scaling_factor) (map snd unscaled).
Proof.
  induction unscaled as [|[x y] rest IH]; intros z; simpl; [reflexivity|].
  rewrite py_make_point, IH. reflexivity.
Qed.

Lemma scaled_from_pz (unscaled : list (R * R)) :
  forall z, map pz (scaled_from unscaled z) = map Fin (ramp (length unscaled) z).
Proof.
  induction unscaled as [|[x y] rest IH]; intros z; simpl; [reflexivity|].
  rewrite pz_make_point, IH. reflexivity.
Qed.

Lemma ramp_length (k : nat) : forall z, length (ramp k z) = k.
Proof. induction k as [|k IH]; intros z; simpl; [|rewrite IH]; reflexivity. Qed.

Lemma ramp_nth (k : nat) :
  forall z i, (i < k)%nat -> nth i (ramp k z) 0 = z + INR i * z_increment.
Proof.
  induction k as [|k IH]; intros z i Hi; [lia|].
  destruct i as [|i].
  - simpl. ring.
  - cbn [ramp nth]. rewrite IH by lia. rewrite S_INR. ring.
Qed.

Lemma ramp_In (k : nat) (z v : R) :
  In v (ramp k z) -> exists i, (i < k)%nat /\ v = z + INR i * z_increment.
Proof.
  intros Hv. apply (In_nth _ _ 0) in Hv. destruct Hv as [i [Hi Hn]].
  rewrite ramp_length in Hi. exists i; split; [exact Hi|].
  rewrite <- Hn. apply ramp_nth. exact Hi.
Qed.

End ScaledLoop.


(** ** The generator as a whole *)

Lemma z_increment_ok (n : Z) (height : R) :
  (0 < n)%Z ->
  (if (0 <? n)%Z then pydiv 121 height (IZR n) else Ok 0) = Ok (height / IZR n).
Proof.
  intros Hn. destruct (Z.ltb_spec 0 n) as [_|]; [|lia].
  unfold pydiv. destruct (Req_dec_T (IZR n) 0) as [E|_]; [|reflexivity].
  apply eq_IZR_R0 in E. lia.
Qed.

(** What a call with at least one point returns, when it returns: the
    extent was positive and the points are the unscaled ones times
    [scale / max_dimension], on the ramp of step [height / num_points]. *)
Lemma generate_inv (argv : list string) (n : Z) (scale turns height : R)
    (pts : list point) :
  (0 < n)%Z ->
  generate_fibonacci_points argv n scale turns height = Ok pts ->
  let ai := 2 * PI * turns / IZR n in
  let unscaled := map (unscaled_point ai) (range n) in
  exists mx Mx my My,
    0 < Rmax (Mx - mx) (My - my)
    /\ is_min mx (map fst unscaled) /\ is_max Mx (map fst unscaled)
    /\ is_min my (map snd unscaled) /\ is_max My (map snd unscaled)
    /\ pts = scaled_from argv (Fin (scale / Rmax (Mx - mx) (My - my)))
                         (height / IZR n) unscaled 0.
Proof.
  intros Hn. unfold generate_fibonacci_points.
  rewrite angle_increment_ok by lia. cbn [bind].
  destruct (max_dimension_finite n (2 * PI * turns / IZR n) Hn)
    as [mx [Mx [my [My [E [Hd [Hmx [HMx [Hmy HMy]]]]]]]]].
  rewrite E. unfold fdiv.
  destruct (Req_dec_T (Rmax (Mx - mx) (My - my)) 0) as [E0|N0]; [discriminate|].
  cbn [bind]. rewrite z_increment_ok by exact Hn. cbn [bind].
  rewrite scaled_loop_from, unscaled_loop_points.
  intros H; injection H as <-.
  exists mx, Mx, my, My. repeat split; try apply Hmx; try apply HMx;
    try apply Hmy; try apply HMy. lra.
Qed.

(** A call with two points or more and a spiral that turns does return. *)
Lemma generate_total (argv : list string) (n : Z) (scale turns height : R) :
  (2 <= n)%Z -> turns <> 0 ->
  exists pts, generate_fibonacci_points argv n scale turns height = Ok pts.
Proof.
  intros Hn Ht. unfold generate_fibonacci_points.
  rewrite angle_increment_ok by lia. cbn [bind].
  destruct (max_dimension_positive n (2 * PI * turns / IZR n) Hn) as [d [E Hd]].
  { apply angle_increment_neq_0; [lia | exact Ht]. }
  rewrite E. unfold fdiv.
  destruct (Req_dec_T d 0) as [E0|N0]; [lra|].
  cbn [bind]. rewrite z_increment_ok by lia. cbn [bind].
  eexists; reflexivity.
Qed.

(** ** The box and the heights of the points returned *)

Lemma Rmax_scale (k a b : R) : 0 <= k -> Rmax (a * k) (b * k) = Rmax a b * k.
Proof.
  intros Hk. rewrite !(Rmult_comm _ k). apply RmaxRmult. exact Hk.
Qed.

Lemma map_fmul_Fin (k : R) (l : list R) :
  map (fun x => fmul (Fin x) (Fin k)) l = map Fin (map (fun x => x * k) l).
Proof. rewrite map_map. reflexivity. Qed.

Lemma bounding_box_scaled (argv : list string) (k zi z : R)
    (unscaled : list (R * R)) (mx Mx my My : R) :
  0 < k ->
  is_min mx (map fst unscaled) -> is_max Mx (map fst unscaled) ->
  is_min my (map snd unscaled) -> is_max My (map snd unscaled) ->
  get_bounding_box (scaled_from argv (Fin k) zi unscaled z)
  = Ok (Fin (mx * k), Fin (Mx * k), Fin (my * k), Fin (My * k)).
Proof.
  intros Hk Hmx HMx Hmy HMy.
  assert (Hne : unscaled <> []).
  { intros ->. destruct Hmx as [[] _]. }
  assert (Hfx : map (fun x => x * k) (map fst unscaled) <> []).
  { destruct unscaled; [congruence | discriminate]. }
  assert (Hfy : map (fun x => x * k) (map snd unscaled) <> []).
  { destruct unscaled; [congruence | discriminate]. }
  unfold get_bounding_box.
  rewrite scaled_from_px, scaled_from_py, !map_fmul_Fin.
  destruct (min_of_Fin 32 _ Hfx) as [a [Ea Ha]].
  destruct (max_of_Fin 33 _ Hfx) as [b [Eb Hb]].
  destruct (min_of_Fin 34 _ Hfy) as [c [Ec Hc]].
  destruct (max_of_Fin 35 _ Hfy) as [d [Ed Hd]].
  rewrite (is_min_unique _ _ _ Ha (is_min_scale k _ _ Hk Hmx)) in Ea.
  rewrite (is_max_unique _ _ _ Hb (is_max_scale k _ _ Hk HMx)) in Eb.
  rewrite (is_min_unique _ _ _ Hc (is_min_scale k _ _ Hk Hmy)) in Ec.
  rewrite (is_max_unique _ _ _ Hd (is_max_scale k _ _ Hk HMy)) in Ed.
  destruct unscaled as [|[x y] rest]; [congruence|].
  cbn [scaled_from].
  rewrite Ea, Eb, Ec, Ed. reflexivity.
Qed.

(** The box of the points returned has [scale] as its larger side. *)
Lemma generate_box (argv : list string) (n : Z) (scale turns height : R)
    (pts : list point) :
  (0 < n)%Z -> 0 < scale ->
  generate_fibonacci_points argv n scale turns height = Ok pts ->
  exists mx Mx my My,
    get_bounding_box pts = Ok (Fin mx, Fin Mx, Fin my, Fin My)
    /\ Rmax (Mx - mx) (My - my) = scale.
Proof.
  intros Hn Hs H.
  destruct (generate_inv argv n scale turns height pts Hn H)
    as [mx [Mx [my [My [Hd [Hmx [HMx [Hmy [HMy ->]]]]]]]]].
  set (d := Rmax (Mx - mx) (My - my)) in *.
  assert (Hk : 0 < scale / d) by (apply Rdiv_lt_0_compat; assumption).
  exists (mx * (scale / d)), (Mx * (scale / d)), (my * (scale / d)), (My * (scale / d)).
  split.
  - apply bounding_box_scaled; assumption.
  - rewrite <- !Rmult_minus_distr_r, Rmax_scale by lra.
    fold d. field. lra.
Qed.

Lemma generate_planar_max_dimension (argv : list string) (n : Z)
    (scale turns height : R) (pts : list point) :
  (0 < n)%Z -> 0 < scale ->
  generate_fibonacci_points argv n scale turns height = Ok pts ->
  planar_max_dimension pts = Ok (Fin scale).
Proof.
  intros Hn Hs H.
  destruct (generate_box argv n scale turns height pts Hn Hs H)
    as [mx [Mx [my [My [E Hd]]]]].
  unfold planar_max_dimension. rewrite E. cbn [bind fsub].
  rewrite py_max_Fin, if_Rlt_Rmax, Hd. reflexivity.
Qed.

(** The heights of a non-empty ramp of non-negative step: the least is the
    first, the greatest the last. *)
Lemma ramp_is_min (zi : R) (k : nat) (z : R) :
  (0 < k)%nat -> 0 <= zi -> is_min z (ramp zi k z).
Proof.
  intros Hk Hzi. split.
  - destruct k; [lia|]. left; reflexivity.
  - intros v Hv. apply ramp_In in Hv. destruct Hv as [i [_ ->]].
    pose proof (pos_INR i). nra.
Qed.

Lemma ramp_is_max (zi : R) (k : nat) (z : R) :
  (0 < k)%nat -> 0 <= zi -> is_max (z + INR (k - 1) * zi) (ramp zi k z).
Proof.
  intros Hk Hzi. split.
  - rewrite <- (ramp_nth zi k z (k - 1)) by lia.
    apply nth_In. rewrite ramp_length. lia.
  - intros v Hv. apply ramp_In in Hv. destruct Hv as [i [Hi ->]].
    assert (INR i <= INR (k - 1)) by (apply le_INR; lia). nra.
Qed.

Lemma ramp_nonempty (zi : R) (k : nat) (z : R) : (0 < k)%nat -> ramp zi k z <> [].
Proof. destruct k; [lia | discriminate]. Qed.

Lemma generate_length (argv : list string) (n : Z) (scale turns height : R)
    (pts : list point) :
  (0 < n)%Z ->
  generate_fibonacci_points argv n scale turns height = Ok pts ->
  length pts = Z.to_nat n.
Proof.
  intros Hn H.
  destruct (generate_inv argv n scale turns height pts Hn H)
    as [mx [Mx [my [My [_ [_ [_ [_ [_ ->]]]]]]]]].
  rewrite scaled_from_length, length_map, range_length. reflexivity.
Qed.

Lemma generate_heights (argv : list string) (n : Z) (scale turns height : R)
    (pts : list point) :
  (0 < n)%Z ->
  generate_fibonacci_points argv n scale turns height = Ok pts ->
  map pz pts = map Fin (ramp (height / IZR n) (Z.to_nat n) 0).
Proof.
  intros Hn H.
  destruct (generate_inv argv n scale turns height pts Hn H)
    as [mx [Mx [my [My [_ [_ [_ [_ [_ ->]]]]]]]]].
  rewrite scaled_from_pz, length_map, range_length. reflexivity.
Qed.

Lemma INR_pred_to_nat (n : Z) : (0 < n)%Z -> INR (Z.to_nat n - 1) = IZR n - 1.
Proof.
  intros Hn. rewrite minus_INR by lia. rewrite INR_IZR_INZ, Z2Nat.id by lia.
  simpl. ring.
Qed.

Lemma last_height (n : Z) (height : R) :
  (0 < n)%Z -> (IZR n - 1) * (height / IZR n) = height - height / IZR n.
Proof.
  intros Hn. assert (0 < IZR n) by (apply IZR_lt; exact Hn). field. lra.
Qed.

(** The range of the heights returned: one step short of [height]. *)
Lemma generate_z_range (argv : list string) (n : Z) (scale turns height : R)
    (pts : list point) :
  (0 < n)%Z -> 0 <= height ->
  generate_fibonacci_points argv n scale turns height = Ok pts ->
  min_of 68 (map pz pts) = Ok (Fin 0)
  /\ max_of 69 (map pz pts) = Ok (Fin (height - height / IZR n))
  /\ z_range pts = Ok (Fin (height - height / IZR n)).
Proof.
  intros Hn Hh H.
  assert (Hk : (0 < Z.to_nat n)%nat) by lia.
  assert (Hzi : 0 <= height / IZR n).
  { assert (0 < / IZR n) by (apply Rinv_0_lt_compat, IZR_lt; exact Hn).
    unfold Rdiv. nra. }
  unfold z_range. rewrite (generate_heights argv n scale turns height pts Hn H).
  destruct (min_of_Fin 68 _ (ramp_nonempty (height / IZR n) _ 0 Hk)) as [a [Ea Ha]].
  destruct (max_of_Fin 69 _ (ramp_nonempty (height / IZR n) _ 0 Hk)) as [b [Eb Hb]].
  rewrite (is_min_unique _ _ _ Ha (ramp_is_min _ _ 0 Hk Hzi)) in Ea.
  rewrite (is_max_unique _ _ _ Hb (ramp_is_max _ _ 0 Hk Hzi)) in Eb.
  rewrite INR_pred_to_nat, Rplus_0_l, last_height in Eb by exact Hn.
  rewrite Ea, Eb. cbn [bind fsub]. rewrite Rminus_0_r. auto.
Qed.

(** ** The calls that do not generate a spiral *)

Lemma generate_zero_raises (argv : list string) (scale turns height : R) :
  generate_fibonacci_points argv 0 scale turns height = Raise (ZeroDivisionError 90).
Proof.
  unfold generate_fibonacci_points, pydiv.
  destruct (Req_dec_T (IZR 0) 0) as [_|N]; [reflexivity | contradiction N; reflexivity].
Qed.

Lemma generate_negative (argv : list string) (n : Z) (scale turns height : R) :
  (n < 0)%Z -> generate_fibonacci_points argv n scale turns height = Ok [].
Proof.
  intros Hn. unfold generate_fibonacci_points.
  rewrite angle_increment_ok by lia. cbn [bind].
  rewrite max_dimension_none by lia. cbn [fdiv bind].
  destruct (Z.ltb_spec 0 n) as [|_]; [lia|]. cbn [bind].
  rewrite unscaled_loop_empty by lia. reflexivity.
Qed.

Lemma generate_one_raises (argv : list string) (scale turns height : R) :
  generate_fibonacci_points argv 1 scale turns height = Raise (ZeroDivisionError 118).
Proof.
  unfold generate_fibonacci_points.
  rewrite angle_increment_ok by lia. cbn [bind].
  rewrite max_dimension_one. unfold fdiv.
  destruct (Req_dec_T 0 0) as [_|N]; [reflexivity | contradiction N; reflexivity].
Qed.



(** * The generator's contract *)



(** C3, as claimed, fails: a call with [num_points = 1] returns no sequence
    at all, it raises at the scaling step of line 118. *)
Lemma one_point_returns_no_sequence :
  (0 <= 1)%Z
  /\ ~ exists points,
         generate_fibonacci_points ["test"%string] 1 1 1 0 = Ok points
         /\ length points = Z.to_nat 1.
Proof.
  split; [lia|]. intros [pts [H _]].
  rewrite generate_one_raises in H. discriminate.
Qed.

(** C3, amended.  For [num_points >= 0] and any [scale], [turns] and
    [height], a call that returns gives exactly [num_points] points; for
    [num_points = 1] the call does not return, it raises
    [ZeroDivisionError] at line 118. *)
Theorem length_is_num_points (argv : list string) (num_points : Z)
    (scale turns height : R) :
  (0 <= num_points)%Z ->
  on_return (generate_fibonacci_points argv num_points scale turns height)
    (fun points => length points = Z.to_nat num_points)
  /\ (num_points = 1%Z ->
      generate_fibonacci_points argv num_points scale turns height
      = Raise (ZeroDivisionError 118)).
Proof.
  intros Hn. split.
  - intros pts H.
    destruct (Z.eq_dec num_points 0) as [->|Hz].
    + rewrite generate_zero_raises in H. discriminate.
    + apply (generate_length argv num_points scale turns height); [lia | exact H].
  - intros ->. apply generate_one_raises.
Qed.

(** At [num_points = 3] the call does return, so that the statement has an
    object there. *)
Lemma length_is_num_points_witness :
  (0 <= 3)%Z /\
  returns (generate_fibonacci_points ["test"%string] 3 1 1 0) /\
  (on_return (generate_fibonacci_points ["test"%string] 3 1 1 0)
     (fun points => length points = Z.to_nat 3)
   /\ (3%Z = 1%Z ->
       generate_fibonacci_points ["test"%string] 3 1 1 0
       = Raise (ZeroDivisionError 118))).
Proof.
  split; [lia|]. split; [apply generate_total; [lia | lra]|].
  apply (length_is_num_points ["test"%string] 3 1 1 0); lia.
Defined.

(** C4.  The code at [num_points = 0]: line 90 divides by [num_points] and
    raises before any point is generated.  For a negative [num_points] the
    call does return the empty sequence. *)
Theorem zero_points_raises (argv : list string) (scale turns height : R) :
  generate_fibonacci_points argv 0 scale turns height = Raise (ZeroDivisionError 90)
  /\ forall num_points,
       (num_points < 0)%Z ->
       generate_fibonacci_points argv num_points scale turns height = Ok [].
Proof.
  split; [apply generate_zero_raises|].
  intros n Hn. apply generate_negative. exact Hn.
Qed.

(** C5.  For [num_points = 1], whatever [scale], [turns] and [height] (so
    for positive [scale] and [turns] and a non-negative [height]), the
    unscaled extent is [0] and the call raises [ZeroDivisionError] at the
    scaling step of line 118; nothing in the generator catches it, and a
    caller such as the body of the self-test gets the same exception. *)
Theorem one_point_divides_by_zero (argv : list string) (scale turns height : R) :
  unscaled_max_dimension 1 turns = Ok (Fin 0)
  /\ generate_fibonacci_points argv 1 scale turns height
     = Raise (ZeroDivisionError 118)
  /\ test_case_body argv (1%Z, scale, turns, height) = Raise (ZeroDivisionError 118).
Proof.
  split; [|split].
  - unfold unscaled_max_dimension. rewrite angle_increment_ok by lia.
    cbn [bind]. rewrite max_dimension_one. reflexivity.
  - apply generate_one_raises.
  - unfold test_case_body. rewrite generate_one_raises. reflexivity.
Qed.





(** * The self-test *)

(** The body of the loop on a regular case: the check of the box passes, and
    the check of the heights compares one step of the ramp with 1% of
    [scale]. *)
Lemma test_case_body_regular (argv : list string) (n : Z) (scale turns height : R) :
  regular (n, scale, turns, height) ->
  exists points,
    generate_fibonacci_points argv n scale turns height = Ok points
    /\ planar_max_dimension points = Ok (Fin scale)
    /\ (0 <= height -> z_range points = Ok (Fin (height - height / IZR n)))
    /\ test_case_body argv (n, scale, turns, height)
       = if Rlt_dec 0 height then
           if Rlt_dec (scale * (1 / 100)) (Rabs (height - height / IZR n - height))
           then Ok (Some [ FailedForHeight height;
                           ExpectedHeight height;
                           ActualHeight (Fin (height - height / IZR n));
                           ZRange (Fin 0) (Fin (height - height / IZR n)) ])
           else Ok None
         else Ok None.
Proof.
  intros [Hn [Ht Hs]].
  assert (Hn0 : (0 < n)%Z) by lia.
  destruct (generate_total argv n scale turns height Hn Ht) as [pts H].
  exists pts. split; [exact H|].
  split; [apply (generate_planar_max_dimension argv n scale turns height); assumption|].
  split.
  { intros Hh. apply (generate_z_range argv n scale turns height); assumption. }
  destruct (generate_box argv n scale turns height pts Hn0 Hs H)
    as [mx [Mx [my [My [E Hd]]]]].
  unfold test_case_body. rewrite H. cbn [bind]. rewrite E. cbn [bind fsub].
  rewrite py_max_Fin, if_Rlt_Rmax, Hd. cbn [fsub fabs fgt flt].
  destruct (Rlt_dec (scale * (1 / 100)) (Rabs (scale - scale))) as [Hlt|_].
  { rewrite Rminus_diag, Rabs_R0 in Hlt. lra. }
  destruct (Rlt_dec 0 height) as [Hh|_]; [|reflexivity].
  destruct (generate_z_range argv n scale turns height pts Hn0 (Rlt_le _ _ Hh) H)
    as [Emin [Emax _]].
  rewrite Emin, Emax. cbn [bind fsub fabs fgt flt].
  rewrite Rminus_0_r.
  destruct (Rlt_dec (scale * (1 / 100)) (Rabs (height - height / IZR n - height)));
    reflexivity.
Qed.

Lemma result_Ok_inj {A : Type} (a b : A) : Ok a = Ok b -> a = b.
Proof. intros H; injection H as H; exact H. Qed.

(** On a regular case the body does not raise, goes on exactly when the case
    is within tolerance, and otherwise has printed a report. *)
Lemma test_case_body_spec (argv : list string) (c : test_case) :
  regular c ->
  (test_case_body argv c = Ok None /\ case_within_tolerance argv c)
  \/ (exists out, test_case_body argv c = Ok (Some out)
                  /\ is_failure_report out
                  /\ ~ case_within_tolerance argv c).
Proof.
  destruct c as [[[n scale] turns] height]. intros Hreg.
  destruct (test_case_body_regular argv n scale turns height Hreg)
    as [pts [H [Ed [Ez ->]]]].
  destruct Hreg as [Hn [Ht Hs]].
  assert (Hbox : exists d, planar_max_dimension pts = Ok d
                           /\ within (scale * (1 / 100)) scale d).
  { exists (Fin scale); split; [exact Ed|].
    exists scale; split; [reflexivity|]. rewrite Rminus_diag, Rabs_R0. lra. }
  destruct (Rlt_dec 0 height) as [Hh|Hh].
  - destruct (Rlt_dec (scale * (1 / 100)) (Rabs (height - height / IZR n - height)))
      as [Hbad|Hgood].
    + right. eexists; split; [reflexivity|]. split.
      * simpl. intros [C|[C|[C|[C|[]]]]]; discriminate.
      * intros [pts' [H' [_ Hz]]].
        rewrite H in H'. apply result_Ok_inj in H'. subst pts'.
        destruct (Hz Hh) as [zr [Ezr [v [-> Hv]]]].
        rewrite Ez in Ezr by lra. apply result_Ok_inj in Ezr.
        injection Ezr as <-. lra.
    + left. split; [reflexivity|].
      exists pts. split; [exact H|]. split; [exact Hbox|].
      intros _. exists (Fin (height - height / IZR n)). split; [apply Ez; lra|].
      eexists; split; [reflexivity|]. lra.
  - left. split; [reflexivity|].
    exists pts. split; [exact H|]. split; [exact Hbox|].
    intros Hc. contradiction.
Qed.

(** The loop over a table of regular cases. *)
Lemma test_loop_spec (argv : list string) (cases : list test_case) :
  Forall regular cases ->
  exists out b,
    test_loop argv cases = Ok (out, b)
    /\ (b = true <-> Forall (case_within_tolerance argv) cases)
    /\ (b = true -> out = [AllTestsPassed])
    /\ (b = false ->
        exists pre c post,
          cases = pre ++ c :: post
          /\ Forall (case_within_tolerance argv) pre
          /\ ~ case_within_tolerance argv c
          /\ test_case_body argv c = Ok (Some out)
          /\ is_failure_report out).
Proof.
  induction 1 as [|c rest Hc Hrest IH].
  - exists [AllTestsPassed], true. simpl.
    split; [reflexivity|]. split; [split; auto|]. split; [auto | discriminate].
  - cbn [test_loop].
    destruct (test_case_body_spec argv c Hc) as [[E Hok]|[out [E [Hrep Hbad]]]];
      rewrite E; cbn [bind].
    + destruct IH as [out [b [El [Hiff [Hpass Hfail]]]]].
      exists out, b. split; [exact El|]. split; [|split].
      * rewrite Hiff. split; [intros HF; constructor; assumption|].
        intros HF; inversion HF; assumption.
      * exact Hpass.
      * intros Hb. destruct (Hfail Hb) as [pre [c' [post [-> [Hpre Hrest']]]]].
        exists (c :: pre), c', post. split; [reflexivity|].
        split; [constructor; assumption | exact Hrest'].
    + exists out, false. split; [reflexivity|]. split; [|split].
      * split; [discriminate|]. intros HF; inversion HF; contradiction.
      * discriminate.
      * intros _. exists [], c, rest. split; [reflexivity|].
        split; [constructor|]. auto.
Qed.

Lemma test_cases_regular : Forall regular test_cases.
Proof.
  unfold test_cases, regular. repeat constructor; try lia; try lra.
Qed.

(** X17.  In exact arithmetic the table passes: [test_spiral_dimensions()]
    returns [True], having printed only the line of line 79.  The box is
    exact, and one step of the ramp, [0.5] in both cases with a height, is below the tolerance
    [1.0]. *)
Lemma test_spiral_dimensions_passes (argv : list string) :
  test_spiral_dimensions argv = Ok ([AllTestsPassed], true).
Proof.
  destruct (test_loop_spec argv test_cases test_cases_regular)
    as [out [b [E [Hiff [Hpass _]]]]].
  unfold test_spiral_dimensions. rewrite E.
  assert (Hb : b = true).
  { apply Hiff. pose proof test_cases_regular as Hreg.
    unfold test_cases in *.
    repeat match goal with
           | H : Forall regular (_ :: _) |- _ => inversion H; subst; clear H
           end.
    repeat constructor;
      match goal with
      | H : regular (?n, ?s, ?t, ?h) |- case_within_tolerance _ (?n, ?s, ?t, ?h) =>
          destruct (test_case_body_regular argv n s t h H) as [pts [Hg [Hd [Hz _]]]];
          exists pts; split; [exact Hg|]; split;
          [ exists (Fin s); split; [exact Hd|];
            exists s; split; [reflexivity|];
            rewrite Rminus_diag, Rabs_R0; lra
          | intros Hh; eexists; split; [apply Hz; lra|];
            eexists; split; [reflexivity|];
            try lra;
            match goal with
            | |- Rabs ?x <= _ =>
                replace x with (- (1 / 2)) by (simpl; field);
                rewrite Rabs_Ropp, Rabs_pos_eq; lra
            end ]
      end. }
  subst b. rewrite (Hpass eq_refl). reflexivity.
Qed.

(** * Further properties of the generator *)

(** ** The points, one by one *)

Lemma range_nth (n : Z) (i : nat) :
  (i < Z.to_nat n)%nat -> nth_error (range n) i = Some (Z.of_nat i).
Proof.
  intros Hi. unfold range.
  rewrite nth_error_map, (nth_error_nth' _ 0%nat) by (rewrite length_seq; exact Hi).
  rewrite seq_nth by exact Hi. reflexivity.
Qed.

Lemma scaled_from_nth (argv : list string) (sf : pyfloat) (zi : R)
    (unscaled : list (R * R)) :
  forall z i p,
    nth_error (scaled_from argv sf zi unscaled z) i = Some p ->
    exists x y,
      nth_error unscaled i = Some (x, y)
      /\ p = make_point argv (fmul (Fin x) sf) (fmul (Fin y) sf) (Fin (z + INR i * zi)).
Proof.
  induction unscaled as [|[x y] rest IH]; intros z i p Hp.
  - destruct i; discriminate.
  - destruct i as [|i].
    + cbn in Hp. injection Hp as <-. exists x, y. split; [reflexivity|].
      do 2 f_equal. simpl. ring.
    + cbn [scaled_from nth_error] in Hp.
      destruct (IH _ _ _ Hp) as [x' [y' [E ->]]].
      exists x', y'. split; [exact E|].
      do 2 f_equal. rewrite S_INR. ring.
Qed.

(** A returned sequence, for at least one point, through the extent of the
    first loop. *)
Lemma generate_inv_extent (argv : list string) (n : Z) (scale turns height : R)
    (pts : list point) :
  (0 < n)%Z ->
  generate_fibonacci_points argv n scale turns height = Ok pts ->
  exists d,
    0 < d
    /\ unscaled_max_dimension n turns = Ok (Fin d)
    /\ pts = scaled_from argv (Fin (scale / d)) (height / IZR n)
               (map (unscaled_point (2 * PI * turns / IZR n)) (range n)) 0.
Proof.
  intros Hn. unfold generate_fibonacci_points, unscaled_max_dimension.
  rewrite angle_increment_ok by lia. cbn [bind].
  destruct (max_dimension_finite n (2 * PI * turns / IZR n) Hn)
    as [mx [Mx [my [My [E [Hd _]]]]]].
  rewrite E. unfold fdiv.
  destruct (Req_dec_T (Rmax (Mx - mx) (My - my)) 0) as [E0|N0]; [discriminate|].
  cbn [bind]. rewrite z_increment_ok by exact Hn. cbn [bind].
  rewrite scaled_loop_from, unscaled_loop_points.
  intros H; injection H as <-.
  exists (Rmax (Mx - mx) (My - my)). split; [lra|]. split; reflexivity.
Qed.

(** The point of index [i] of a returned sequence. *)
Lemma generate_nth (argv : list string) (n : Z) (scale turns height : R)
    (pts : list point) :
  (0 < n)%Z ->
  generate_fibonacci_points argv n scale turns height = Ok pts ->
  exists d,
    0 < d
    /\ unscaled_max_dimension n turns = Ok (Fin d)
    /\ forall i p,
         nth_error pts i = Some p ->
         (i < Z.to_nat n)%nat
         /\ p = make_point argv
                  (Fin (fst (unscaled_point (2 * PI * turns / IZR n) (Z.of_nat i))
                        * (scale / d)))
                  (Fin (snd (unscaled_point (2 * PI * turns / IZR n) (Z.of_nat i))
                        * (scale / d)))
                  (Fin (INR i * (height / IZR n))).
Proof.
  intros Hn H.
  pose proof (generate_length argv n scale turns height pts Hn H) as Hlen.
  destruct (generate_inv_extent argv n scale turns height pts Hn H) as [d [Hd [Ed ->]]].
  exists d. split; [exact Hd|]. split; [exact Ed|].
  intros i p Hp.
  assert (Hi : (i < Z.to_nat n)%nat).
  { rewrite <- Hlen. apply nth_error_Some. congruence. }
  split; [exact Hi|].
  destruct (scaled_from_nth _ _ _ _ _ _ _ Hp) as [x [y [E ->]]].
  rewrite nth_error_map, range_nth in E by exact Hi. cbn [option_map] in E.
  assert (E' : unscaled_point (2 * PI * turns / IZR n) (Z.of_nat i) = (x, y))
    by congruence.
  rewrite Rplus_0_l, E'. reflexivity.
Qed.

Lemma at_position_make_point (argv : list string) (x y z : R) :
  at_position (make_point argv (Fin x) (Fin y) (Fin z)) x y z.
Proof.
  unfold at_position. rewrite px_make_point, py_make_point, pz_make_point. auto.
Qed.

(** ** The spiral that does not turn *)

Lemma unscaled_point_still (i : Z) : unscaled_point 0 i = (1, 0).
Proof.
  unfold unscaled_point. cbv zeta.
  replace (2 * (IZR i * 0) / PI) with 0 by (unfold Rdiv; ring).
  rewrite Rmult_0_r, Rpower_phi_0, cos_0, sin_0. f_equal; ring.
Qed.

Lemma In_map_const {A B : Type} (f : A -> B) (b v : B) (l : list A) :
  (forall a, f a = b) -> In v (map f l) -> v = b.
Proof.
  intros Hf Hv. apply in_map_iff in Hv. destruct Hv as [a [<- _]]. apply Hf.
Qed.

Lemma generate_still_raises (argv : list string) (n : Z) (scale height : R) :
  (1 <= n)%Z ->
  generate_fibonacci_points argv n scale 0 height = Raise (ZeroDivisionError 118).
Proof.
  intros Hn. unfold generate_fibonacci_points.
  rewrite angle_increment_ok by lia. cbn [bind].
  replace (2 * PI * 0 / IZR n) with 0 by (unfold Rdiv; ring).
  destruct (max_dimension_finite n 0) as [mx [Mx [my [My [E [_ [Hmx [HMx [Hmy HMy]]]]]]]]];
    [lia|].
  rewrite E.
  destruct Hmx as [Hmx _], HMx as [HMx _], Hmy as [Hmy _], HMy as [HMy _].
  rewrite map_map in Hmx, HMx, Hmy, HMy.
  apply (In_map_const _ 1) in Hmx; [|intros; rewrite unscaled_point_still; reflexivity].
  apply (In_map_const _ 1) in HMx; [|intros; rewrite unscaled_point_still; reflexivity].
  apply (In_map_const _ 0) in Hmy; [|intros; rewrite unscaled_point_still; reflexivity].
  apply (In_map_const _ 0) in HMy; [|intros; rewrite unscaled_point_still; reflexivity].
  subst. rewrite !Rminus_diag, Rmax_left by lra.
  unfold fdiv. destruct (Req_dec_T 0 0) as [_|N]; [reflexivity | contradiction N; reflexivity].
Qed.

Lemma generate_raises_iff_aux (argv : list string) (n : Z)
    (scale turns height : R) (e : exn) :
  (n = 0%Z /\ e = ZeroDivisionError 90)
  \/ ((1 <= n)%Z /\ (n = 1%Z \/ turns = 0) /\ e = ZeroDivisionError 118) ->
  generate_fibonacci_points argv n scale turns height = Raise e.
Proof.
  intros [[-> ->]|[Hn [[->| ->] ->]]].
  - apply generate_zero_raises.
  - apply generate_one_raises.
  - apply generate_still_raises. exact Hn.
Qed.

(** ** When the generator returns, and what it raises *)

(** X1.  A call returns only if [num_points] is negative, or is at least 2
    with [turns] not zero. *)
Theorem generate_returns_only_if (argv : list string) (num_points : Z)
    (scale turns height : R) :
  returns (generate_fibonacci_points argv num_points scale turns height) ->
  (num_points < 0)%Z \/ ((2 <= num_points)%Z /\ turns <> 0).
Proof.
  intros [pts H].
  destruct (Z_lt_le_dec num_points 0) as [Hneg|Hnn]; [left; exact Hneg|].
  right.
  destruct (Z.eq_dec num_points 0) as [->|H0].
  { rewrite generate_zero_raises in H. discriminate. }
  destruct (Z.eq_dec num_points 1) as [->|H1].
  { rewrite generate_one_raises in H. discriminate. }
  split; [lia|]. intros ->.
  rewrite generate_still_raises in H by lia. discriminate.
Qed.

Lemma generate_returns_only_if_witness :
  returns (generate_fibonacci_points ["test"%string] 2 1 1 0)
  /\ ((2 < 0)%Z \/ ((2 <= 2)%Z /\ 1 <> 0)).
Proof.
  assert (H : returns (generate_fibonacci_points ["test"%string] 2 1 1 0))
    by (apply generate_total; [lia | lra]).
  split; [exact H|].
  exact (generate_returns_only_if ["test"%string] 2 1 1 0 H).
Defined.

(** X2.  The degenerate calls raise [ZeroDivisionError]: at line 90 when
    [num_points] is 0, and at line 118 when there is at least one point and
    either a single one or no turn at all, all the unscaled points then
    being [(1, 0)]. *)
Theorem degenerate_calls_raise (argv : list string) (num_points : Z)
    (scale turns height : R) :
  (num_points = 0%Z ->
   generate_fibonacci_points argv num_points scale turns height
   = Raise (ZeroDivisionError 90))
  /\ ((1 <= num_points)%Z -> num_points = 1%Z \/ turns = 0 ->
      generate_fibonacci_points argv num_points scale turns height
      = Raise (ZeroDivisionError 118)).
Proof.
  split.
  - intros ->. apply generate_zero_raises.
  - intros Hn [->| ->]; [apply generate_one_raises|].
    apply generate_still_raises. exact Hn.
Qed.

(** ** Heights *)

(** X3.  With [height = 0] every point returned is at height 0. *)
Theorem flat_spiral_stays_flat (argv : list string) (num_points : Z)
    (scale turns : R) :
  on_return (generate_fibonacci_points argv num_points scale turns 0)
    (Forall (fun p => pz p = Fin 0)).
Proof.
  intros pts H.
  destruct (Z_lt_le_dec num_points 0) as [Hneg|Hnn].
  { rewrite generate_negative in H by exact Hneg. injection H as <-. constructor. }
  destruct (Z.eq_dec num_points 0) as [->|H0].
  { rewrite generate_zero_raises in H. discriminate. }
  assert (Hn : (0 < num_points)%Z) by lia.
  destruct (generate_nth argv num_points scale turns 0 pts Hn H) as [d [_ [_ Hp]]].
  apply Forall_forall. intros p Hin.
  apply In_nth_error in Hin. destruct Hin as [i Hi].
  destruct (Hp i p Hi) as [_ ->].
  rewrite pz_make_point. f_equal. unfold Rdiv. ring.
Qed.

(** X4.  With [height > 0] the heights returned start at 0, increase
    strictly along the sequence, and all stay strictly below [height]. *)
Theorem heights_climb_below_height (argv : list string) (num_points : Z)
    (scale turns height : R) :
  0 < height ->
  on_return (generate_fibonacci_points argv num_points scale turns height)
    (fun points =>
       (forall i p, nth_error points i = Some p ->
                    exists z, pz p = Fin z /\ 0 <= z < height)
       /\ (forall p, nth_error points 0 = Some p -> pz p = Fin 0)
       /\ (forall i j p q,
             (i < j)%nat ->
             nth_error points i = Some p -> nth_error points j = Some q ->
             flt (pz p) (pz q) = true)).
Proof.
  intros Hh pts H.
  destruct (Z_lt_le_dec num_points 0) as [Hneg|Hnn].
  { rewrite generate_negative in H by exact Hneg. injection H as <-.
    split; [|split].
    - intros [|i] p Hp; discriminate.
    - intros p Hp; discriminate.
    - intros [|i] j p q _ Hp; discriminate. }
  destruct (Z.eq_dec num_points 0) as [->|H0].
  { rewrite generate_zero_raises in H. discriminate. }
  assert (Hn : (0 < num_points)%Z) by lia.
  destruct (generate_nth argv num_points scale turns height pts Hn H) as [d [_ [_ Hp]]].
  assert (Hpos : 0 < IZR num_points) by (apply IZR_lt; exact Hn).
  assert (Hinv : 0 < / IZR num_points) by (apply Rinv_0_lt_compat; exact Hpos).
  assert (Hstep : 0 < height / IZR num_points) by (unfold Rdiv; nra).
  assert (Hidx : forall i, (i < Z.to_nat num_points)%nat -> INR i < IZR num_points).
  { intros i Hi. rewrite INR_IZR_INZ. apply IZR_lt. lia. }
  split; [|split].
  - intros i p Hi. destruct (Hp i p Hi) as [Hlt ->].
    rewrite pz_make_point. eexists; split; [reflexivity|].
    pose proof (pos_INR i) as H0i. pose proof (Hidx i Hlt) as Hin.
    split; [nra|].
    replace height with (IZR num_points * (height / IZR num_points)) at 2
      by (field; lra).
    nra.
  - intros p Hi. destruct (Hp 0%nat p Hi) as [_ ->].
    rewrite pz_make_point. f_equal. simpl. ring.
  - intros i j p q Hij Hi Hj.
    destruct (Hp i p Hi) as [_ ->]. destruct (Hp j q Hj) as [_ ->].
    rewrite !pz_make_point. simpl.
    assert (INR i < INR j) by (apply lt_INR; exact Hij).
    destruct (Rlt_dec (INR i * (height / IZR num_points))
                      (INR j * (height / IZR num_points))); [reflexivity | nra].
Qed.

Lemma heights_climb_below_height_witness :
  0 < 50 /\
  on_return (generate_fibonacci_points ["test"%string] 100 100 1 50)
    (fun points =>
       (forall i p, nth_error points i = Some p ->
                    exists z, pz p = Fin z /\ 0 <= z < 50)
       /\ (forall p, nth_error points 0 = Some p -> pz p = Fin 0)
       /\ (forall i j p q,
             (i < j)%nat ->
             nth_error points i = Some p -> nth_error points j = Some q ->
             flt (pz p) (pz q) = true)).
Proof.
  split; [lra|].
  apply (heights_climb_below_height ["test"%string] 100 100 1 50). lra.
Defined.

(** ** The shape of the spiral *)

(** X5.  The first point returned lies on the x axis, at
    [(scale / max_dimension, 0, 0)], [max_dimension] being the extent of the
    unscaled spiral. *)
Theorem first_point_on_x_axis (argv : list string) (num_points : Z)
    (scale turns height : R) :
  (1 <= num_points)%Z ->
  on_return (generate_fibonacci_points argv num_points scale turns height)
    (fun points =>
       exists d p,
         unscaled_max_dimension num_points turns = Ok (Fin d)
         /\ 0 < d
         /\ nth_error points 0 = Some p
         /\ at_position p (scale / d) 0 0).
Proof.
  intros Hn pts H.
  assert (Hn0 : (0 < num_points)%Z) by lia.
  pose proof (generate_length argv num_points scale turns height pts Hn0 H) as Hlen.
  destruct (generate_nth argv num_points scale turns height pts Hn0 H)
    as [d [Hd [Ed Hp]]].
  destruct (nth_error pts 0) as [p|] eqn:E0.
  2:{ apply nth_error_None in E0. lia. }
  exists d, p. split; [exact Ed|]. split; [exact Hd|]. split; [reflexivity|].
  destruct (Hp 0%nat p E0) as [_ ->].
  change (Z.of_nat 0) with 0%Z. rewrite unscaled_point_0. cbn [fst snd].
  replace (1 * (scale / d)) with (scale / d) by ring.
  replace (0 * (scale / d)) with 0 by ring.
  replace (INR 0 * (height / IZR num_points)) with 0 by (simpl; ring).
  apply at_position_make_point.
Qed.

Lemma first_point_on_x_axis_witness :
  (1 <= 2)%Z /\
  on_return (generate_fibonacci_points ["test"%string] 2 1 1 0)
    (fun points =>
       exists d p,
         unscaled_max_dimension 2 1 = Ok (Fin d)
         /\ 0 < d
         /\ nth_error points 0 = Some p
         /\ at_position p (1 / d) 0 0).
Proof.
  split; [lia|].
  apply (first_point_on_x_axis ["test"%string] 2 1 1 0). lia.
Defined.

Lemma unscaled_point_sq (ai : R) (i : Z) :
  let '(x, y) := unscaled_point ai i in
  x * x + y * y = Rpower phi (2 * (IZR i * ai) / PI) * Rpower phi (2 * (IZR i * ai) / PI).
Proof.
  unfold unscaled_point. cbv zeta.
  pose proof (sin2_cos2 (IZR i * ai)) as H. unfold Rsqr in H.
  set (r := Rpower phi (2 * (IZR i * ai) / PI)).
  replace (r * cos (IZR i * ai) * (r * cos (IZR i * ai))
           + r * sin (IZR i * ai) * (r * sin (IZR i * ai)))
    with (r * r * (sin (IZR i * ai) * sin (IZR i * ai)
                   + cos (IZR i * ai) * cos (IZR i * ai))) by ring.
  rewrite H. ring.
Qed.

Lemma exponent_of_index (n : Z) (turns : R) (i : nat) :
  (0 < n)%Z ->
  2 * (IZR (Z.of_nat i) * (2 * PI * turns / IZR n)) / PI
  = 4 * turns * INR i / IZR n.
Proof.
  intros Hn. assert (0 < IZR n) by (apply IZR_lt; exact Hn).
  pose proof PI_RGT_0. rewrite <- INR_IZR_INZ. field. split; lra.
Qed.

(** X6.  The point of index [i] is at distance
    [|scale / max_dimension| * phi ^ (4 * turns * i / num_points)] from the
    z axis: the radius grows exponentially with the index. *)
Theorem radius_grows_exponentially (argv : list string) (num_points : Z)
    (scale turns height : R) :
  (1 <= num_points)%Z ->
  on_return (generate_fibonacci_points argv num_points scale turns height)
    (fun points =>
       exists d,
         unscaled_max_dimension num_points turns = Ok (Fin d) /\ 0 < d
         /\ forall i p,
              nth_error points i = Some p ->
              exists x y,
                px p = Fin x /\ py p = Fin y
                /\ x * x + y * y
                   = Rsqr (scale / d
                           * Rpower phi (4 * turns * INR i / IZR num_points))).
Proof.
  intros Hn pts H.
  assert (Hn0 : (0 < num_points)%Z) by lia.
  destruct (generate_nth argv num_points scale turns height pts Hn0 H)
    as [d [Hd [Ed Hp]]].
  exists d. split; [exact Ed|]. split; [exact Hd|].
  intros i p Hi. destruct (Hp i p Hi) as [_ ->].
  rewrite px_make_point, py_make_point.
  pose proof (unscaled_point_sq (2 * PI * turns / IZR num_points) (Z.of_nat i)) as Hsq.
  destruct (unscaled_point (2 * PI * turns / IZR num_points) (Z.of_nat i)) as [x y].
  cbn [fst snd]. do 2 eexists. split; [reflexivity|]. split; [reflexivity|].
  rewrite exponent_of_index in Hsq by exact Hn0.
  unfold Rsqr.
  replace (x * (scale / d) * (x * (scale / d)) + y * (scale / d) * (y * (scale / d)))
    with ((x * x + y * y) * ((scale / d) * (scale / d))) by ring.
  rewrite Hsq. ring.
Qed.

Lemma radius_grows_exponentially_witness :
  (1 <= 2)%Z /\
  on_return (generate_fibonacci_points ["test"%string] 2 1 1 0)
    (fun points =>
       exists d,
         unscaled_max_dimension 2 1 = Ok (Fin d) /\ 0 < d
         /\ forall i p,
              nth_error points i = Some p ->
              exists x y,
                px p = Fin x /\ py p = Fin y
                /\ x * x + y * y
                   = Rsqr (1 / d * Rpower phi (4 * 1 * INR i / IZR 2))).
Proof.
  split; [lia|].
  apply (radius_grows_exponentially ["test"%string] 2 1 1 0). lia.
Defined.

Lemma unscaled_point_quarter_turn (ai : R) (i j : Z) :
  IZR j * ai = IZR i * ai + PI / 2 ->
  let '(x, y) := unscaled_point ai i in
  unscaled_point ai j = (- (phi * y), phi * x).
Proof.
  intros Ha. unfold unscaled_point. cbv zeta. rewrite Ha.
  pose proof PI_RGT_0 as Hpi. pose proof phi_gt_1 as Hphi.
  replace (2 * (IZR i * ai + PI / 2) / PI) with (2 * (IZR i * ai) / PI + 1)
    by (field; lra).
  rewrite Rpower_plus, Rpower_1 by lra.
  rewrite cos_plus, sin_plus, cos_PI2, sin_PI2.
  f_equal; ring.
Qed.

(** X7.  A quarter of a turn later the spiral is [phi] times as far out:
    when [4 * turns * (j - i) = num_points], the point of index [j] is the
    point of index [i] turned by a right angle about the z axis and moved
    [phi] times as far from it. *)
Theorem quarter_turn_scales_by_phi (argv : list string) (num_points : Z)
    (scale turns height : R) (i j : nat) :
  (1 <= num_points)%Z ->
  4 * turns * (INR j - INR i) = IZR num_points ->
  on_return (generate_fibonacci_points argv num_points scale turns height)
    (fun points =>
       forall p q,
         nth_error points i = Some p -> nth_error points j = Some q ->
         exists x y,
           px p = Fin x /\ py p = Fin y
           /\ px q = Fin (- (phi * y)) /\ py q = Fin (phi * x)).
Proof.
  intros Hn Hq pts H.
  assert (Hn0 : (0 < num_points)%Z) by lia.
  destruct (generate_nth argv num_points scale turns height pts Hn0 H)
    as [d [Hd [Ed Hp]]].
  intros p q Hi Hj.
  destruct (Hp i p Hi) as [_ ->]. destruct (Hp j q Hj) as [_ ->].
  rewrite !px_make_point, !py_make_point.
  set (ai := 2 * PI * turns / IZR num_points).
  assert (Ha : IZR (Z.of_nat j) * ai = IZR (Z.of_nat i) * ai + PI / 2).
  { rewrite <- !INR_IZR_INZ. unfold ai.
    assert (Hpos : 0 < IZR num_points) by (apply IZR_lt; exact Hn0).
    assert (E : (INR j - INR i) * (2 * PI * turns / IZR num_points) = PI / 2).
    { replace ((INR j - INR i) * (2 * PI * turns / IZR num_points))
        with (PI / 2 * (4 * turns * (INR j - INR i)) / IZR num_points)
        by (field; lra).
      rewrite Hq. field. lra. }
    lra. }
  pose proof (unscaled_point_quarter_turn ai _ _ Ha) as Hrot.
  destruct (unscaled_point ai (Z.of_nat i)) as [x y].
  rewrite Hrot. cbn [fst snd].
  exists (x * (scale / d)), (y * (scale / d)).
  repeat split; f_equal; ring.
Qed.

Lemma quarter_turn_scales_by_phi_witness :
  (1 <= 4)%Z /\ 4 * 1 * (INR 1 - INR 0) = IZR 4 /\
  on_return (generate_fibonacci_points ["test"%string] 4 1 1 0)
    (fun points =>
       forall p q,
         nth_error points 0 = Some p -> nth_error points 1 = Some q ->
         exists x y,
           px p = Fin x /\ py p = Fin y
           /\ px q = Fin (- (phi * y)) /\ py q = Fin (phi * x)).
Proof.
  split; [lia|]. split; [simpl; lra|].
  apply (quarter_turn_scales_by_phi ["test"%string] 4 1 1 0 0 1); [lia | simpl; lra].
Defined.

(** X8.  With [turns > 0] and [scale] not zero, each point returned is
    strictly farther from the z axis than every point before it. *)
Theorem spiral_moves_outward (argv : list string) (num_points : Z)
    (scale turns height : R) :
  0 < turns -> scale <> 0 ->
  on_return (generate_fibonacci_points argv num_points scale turns height)
    (fun points =>
       forall i j p q,
         (i < j)%nat ->
         nth_error points i = Some p -> nth_error points j = Some q ->
         exists x y x' y',
           px p = Fin x /\ py p = Fin y /\ px q = Fin x' /\ py q = Fin y'
           /\ x * x + y * y < x' * x' + y' * y').
Proof.
  intros Ht Hs pts H i j p q Hij Hi Hj.
  destruct (Z_lt_le_dec num_points 0) as [Hneg|Hnn].
  { rewrite generate_negative in H by exact Hneg. injection H as <-.
    destruct i; discriminate. }
  destruct (Z.eq_dec num_points 0) as [->|H0].
  { rewrite generate_zero_raises in H. discriminate. }
  assert (Hn0 : (0 < num_points)%Z) by lia.
  destruct (generate_nth argv num_points scale turns height pts Hn0 H)
    as [d [Hd [Ed Hp]]].
  destruct (Hp i p Hi) as [_ ->]. destruct (Hp j q Hj) as [_ ->].
  rewrite !px_make_point, !py_make_point.
  set (ai := 2 * PI * turns / IZR num_points).
  pose proof (unscaled_point_sq ai (Z.of_nat i)) as Hsi.
  pose proof (unscaled_point_sq ai (Z.of_nat j)) as Hsj.
  destruct (unscaled_point ai (Z.of_nat i)) as [x y].
  destruct (unscaled_point ai (Z.of_nat j)) as [x' y'].
  cbn [fst snd]. do 4 eexists. repeat (split; [reflexivity|]).
  unfold ai in Hsi, Hsj. rewrite exponent_of_index in Hsi, Hsj by exact Hn0.
  set (ri := Rpower phi (4 * turns * INR i / IZR num_points)) in *.
  set (rj := Rpower phi (4 * turns * INR j / IZR num_points)) in *.
  assert (Hri : 0 < ri) by (unfold ri, Rpower; apply exp_pos).
  assert (Hlt : ri < rj).
  { unfold ri, rj. apply Rpower_lt; [apply phi_gt_1|].
    assert (Hpos : 0 < IZR num_points) by (apply IZR_lt; exact Hn0).
    assert (Hinv : 0 < / IZR num_points) by (apply Rinv_0_lt_compat; exact Hpos).
    assert (INR i < INR j) by (apply lt_INR; exact Hij).
    unfold Rdiv. apply Rmult_lt_compat_r; [exact Hinv | nra]. }
  assert (Hk : scale / d <> 0).
  { unfold Rdiv. apply Rmult_integral_contrapositive_currified;
      [exact Hs | apply Rinv_neq_0_compat; lra]. }
  assert (Hk2 : 0 < scale / d * (scale / d)).
  { destruct (Rtotal_order (scale / d) 0) as [?|[?|?]]; [nra | contradiction | nra]. }
  replace (x * (scale / d) * (x * (scale / d)) + y * (scale / d) * (y * (scale / d)))
    with ((x * x + y * y) * (scale / d * (scale / d))) by ring.
  replace (x' * (scale / d) * (x' * (scale / d)) + y' * (scale / d) * (y' * (scale / d)))
    with ((x' * x' + y' * y') * (scale / d * (scale / d))) by ring.
  rewrite Hsi, Hsj.
  apply Rmult_lt_compat_r; [exact Hk2 | nra].
Qed.

Lemma spiral_moves_outward_witness :
  0 < 1 /\ 100 <> 0 /\
  on_return (generate_fibonacci_points ["test"%string] 100 100 1 0)
    (fun points =>
       forall i j p q,
         (i < j)%nat ->
         nth_error points i = Some p -> nth_error points j = Some q ->
         exists x y x' y',
           px p = Fin x /\ py p = Fin y /\ px q = Fin x' /\ py q = Fin y'
           /\ x * x + y * y < x' * x' + y' * y').
Proof.
  split; [lra|]. split; [lra|].
  apply (spiral_moves_outward ["test"%string] 100 100 1 0); lra.
Defined.

(** ** Scale *)

Lemma generate_from_extent (argv : list string) (n : Z) (scale turns height d : R) :
  (0 < n)%Z -> d <> 0 ->
  unscaled_max_dimension n turns = Ok (Fin d) ->
  generate_fibonacci_points argv n scale turns height
  = Ok (scaled_from argv (Fin (scale / d)) (height / IZR n)
          (map (unscaled_point (2 * PI * turns / IZR n)) (range n)) 0).
Proof.
  intros Hn Hd. unfold unscaled_max_dimension, generate_fibonacci_points.
  rewrite angle_increment_ok by lia. cbn [bind].
  intros E. injection E as E. rewrite E. unfold fdiv.
  destruct (Req_dec_T d 0) as [E0|_]; [contradiction|].
  cbn [bind]. rewrite z_increment_ok by exact Hn. cbn [bind].
  rewrite scaled_loop_from, unscaled_loop_points. reflexivity.
Qed.

Lemma scale_xy_scaled_from (argv : list string) (c k zi : R) (unscaled : list (R * R)) :
  forall z,
    map (scale_xy c) (scaled_from argv (Fin k) zi unscaled z)
    = scaled_from argv (Fin (c * k)) zi unscaled z.
Proof.
  induction unscaled as [|[x y] rest IH]; intros z; cbn [scaled_from map]; [reflexivity|].
  rewrite IH. f_equal.
  unfold make_point. destruct (test_in argv); cbn [scale_xy fmul];
    f_equal; f_equal; ring.
Qed.

(** X9.  The planar coordinates are linear in [scale]: if a call returns,
    the call with [c * scale] returns the same points with [x] and [y]
    multiplied by [c], heights unchanged. *)
Theorem output_is_linear_in_scale (argv : list string) (num_points : Z)
    (scale turns height c : R) :
  on_return (generate_fibonacci_points argv num_points scale turns height)
    (fun points =>
       generate_fibonacci_points argv num_points (c * scale) turns height
       = Ok (map (scale_xy c) points)).
Proof.
  intros pts H.
  destruct (Z_lt_le_dec num_points 0) as [Hneg|Hnn].
  { rewrite generate_negative in H by exact Hneg. injection H as <-.
    apply generate_negative. exact Hneg. }
  destruct (Z.eq_dec num_points 0) as [->|H0].
  { rewrite generate_zero_raises in H. discriminate. }
  assert (Hn0 : (0 < num_points)%Z) by lia.
  destruct (generate_inv_extent argv num_points scale turns height pts Hn0 H)
    as [d [Hd [Ed ->]]].
  rewrite (generate_from_extent argv num_points (c * scale) turns height d Hn0)
    by (lra || exact Ed).
  rewrite scale_xy_scaled_from. do 3 f_equal. field. lra.
Qed.

Lemma is_min_scale_nonneg (k : R) (l : list R) (m : R) :
  0 <= k -> is_min m l -> is_min (m * k) (map (fun x => x * k) l).
Proof.
  intros Hk [Hin Hle]; split.
  - apply (in_map (fun x => x * k)); assumption.
  - intros x Hx. apply in_map_iff in Hx. destruct Hx as [x0 [<- Hx0]].
    apply Rmult_le_compat_r; [exact Hk | apply Hle; assumption].
Qed.

Lemma is_max_scale_nonneg (k : R) (l : list R) (m : R) :
  0 <= k -> is_max m l -> is_max (m * k) (map (fun x => x * k) l).
Proof.
  intros Hk [Hin Hle]; split.
  - apply (in_map (fun x => x * k)); assumption.
  - intros x Hx. apply in_map_iff in Hx. destruct Hx as [x0 [<- Hx0]].
    apply Rmult_le_compat_r; [exact Hk | apply Hle; assumption].
Qed.

(** A negative factor exchanges the least and the greatest. *)
Lemma is_min_scale_neg (k : R) (l : list R) (m : R) :
  k < 0 -> is_max m l -> is_min (m * k) (map (fun x => x * k) l).
Proof.
  intros Hk [Hin Hle]; split.
  - apply (in_map (fun x => x * k)); assumption.
  - intros x Hx. apply in_map_iff in Hx. destruct Hx as [x0 [<- Hx0]].
    pose proof (Hle _ Hx0). nra.
Qed.

Lemma is_max_scale_neg (k : R) (l : list R) (m : R) :
  k < 0 -> is_min m l -> is_max (m * k) (map (fun x => x * k) l).
Proof.
  intros Hk [Hin Hle]; split.
  - apply (in_map (fun x => x * k)); assumption.
  - intros x Hx. apply in_map_iff in Hx. destruct Hx as [x0 [<- Hx0]].
    pose proof (Hle _ Hx0). nra.
Qed.

(** The box of scaled points, from the extrema of the scaled coordinates. *)
Lemma bounding_box_of_extrema (argv : list string) (k zi z : R)
    (unscaled : list (R * R)) (a b c d : R) :
  is_min a (map (fun x => x * k) (map fst unscaled)) ->
  is_max b (map (fun x => x * k) (map fst unscaled)) ->
  is_min c (map (fun x => x * k) (map snd unscaled)) ->
  is_max d (map (fun x => x * k) (map snd unscaled)) ->
  get_bounding_box (scaled_from argv (Fin k) zi unscaled z)
  = Ok (Fin a, Fin b, Fin c, Fin d).
Proof.
  intros Ha Hb Hc Hd.
  assert (Hne : unscaled <> []).
  { intros ->. destruct Ha as [[] _]. }
  assert (Hfx : map (fun x => x * k) (map fst unscaled) <> []).
  { destruct unscaled; [congruence | discriminate]. }
  assert (Hfy : map (fun x => x * k) (map snd unscaled) <> []).
  { destruct unscaled; [congruence | discriminate]. }
  unfold get_bounding_box.
  rewrite scaled_from_px, scaled_from_py, !map_fmul_Fin.
  destruct (min_of_Fin 32 _ Hfx) as [a' [Ea Ha']].
  destruct (max_of_Fin 33 _ Hfx) as [b' [Eb Hb']].
  destruct (min_of_Fin 34 _ Hfy) as [c' [Ec Hc']].
  destruct (max_of_Fin 35 _ Hfy) as [d' [Ed Hd']].
  rewrite (is_min_unique _ _ _ Ha' Ha) in Ea.
  rewrite (is_max_unique _ _ _ Hb' Hb) in Eb.
  rewrite (is_min_unique _ _ _ Hc' Hc) in Ec.
  rewrite (is_max_unique _ _ _ Hd' Hd) in Ed.
  destruct unscaled as [|[x y] rest]; [congruence|].
  cbn [scaled_from].
  rewrite Ea, Eb, Ec, Ed. reflexivity.
Qed.

(** X10.  Whatever the sign of [scale], the box of the sequence returned
    has [|scale|] as its larger side: a negative [scale] gives the spiral
    mirrored through the origin, and [scale = 0] puts every point there. *)
Theorem bounding_box_is_abs_scale (argv : list string) (num_points : Z)
    (scale turns height : R) :
  (1 <= num_points)%Z ->
  on_return (generate_fibonacci_points argv num_points scale turns height)
    (fun points => planar_max_dimension points = Ok (Fin (Rabs scale))).
Proof.
  intros Hn pts H.
  assert (Hn0 : (0 < num_points)%Z) by lia.
  destruct (generate_inv argv num_points scale turns height pts Hn0 H)
    as [mx [Mx [my [My [Hd [Hmx [HMx [Hmy [HMy ->]]]]]]]]].
  set (d := Rmax (Mx - mx) (My - my)) in *.
  set (k := scale / d).
  assert (Hkd : k * d = scale) by (unfold k; field; lra).
  unfold planar_max_dimension.
  destruct (Rle_lt_dec 0 k) as [Hk|Hk].
  - rewrite (bounding_box_of_extrema argv k _ _ _ (mx * k) (Mx * k) (my * k) (My * k))
      by (apply is_min_scale_nonneg || apply is_max_scale_nonneg; assumption).
    cbn [bind fsub]. rewrite py_max_Fin, if_Rlt_Rmax.
    rewrite <- !Rmult_minus_distr_r, Rmax_scale by exact Hk.
    fold d. rewrite Rabs_pos_eq by nra. do 2 f_equal. lra.
  - rewrite (bounding_box_of_extrema argv k _ _ _ (Mx * k) (mx * k) (My * k) (my * k))
      by (apply is_min_scale_neg || apply is_max_scale_neg; assumption).
    cbn [bind fsub]. rewrite py_max_Fin, if_Rlt_Rmax.
    replace (mx * k - Mx * k) with ((Mx - mx) * (- k)) by ring.
    replace (my * k - My * k) with ((My - my) * (- k)) by ring.
    rewrite Rmax_scale by lra. fold d.
    rewrite Rabs_left by nra. do 2 f_equal. lra.
Qed.

Lemma bounding_box_is_abs_scale_witness :
  (1 <= 2)%Z /\
  on_return (generate_fibonacci_points ["test"%string] 2 (-3) 1 0)
    (fun points => planar_max_dimension points = Ok (Fin (Rabs (-3)))).
Proof.
  split; [lia|].
  apply (bounding_box_is_abs_scale ["test"%string] 2 (-3) 1 0). lia.
Defined.

(** X11.  The infinite bounds the first loop starts from never reach the
    output: every coordinate of every point returned is a finite number. *)
Theorem output_is_finite (argv : list string) (num_points : Z)
    (scale turns height : R) :
  on_return (generate_fibonacci_points argv num_points scale turns height)
    (Forall (fun p => exists x y z, at_position p x y z)).
Proof.
  intros pts H.
  destruct (Z_lt_le_dec num_points 0) as [Hneg|Hnn].
  { rewrite generate_negative in H by exact Hneg. injection H as <-. constructor. }
  destruct (Z.eq_dec num_points 0) as [->|H0].
  { rewrite generate_zero_raises in H. discriminate. }
  assert (Hn0 : (0 < num_points)%Z) by lia.
  destruct (generate_nth argv num_points scale turns height pts Hn0 H) as [d [_ [_ Hp]]].
  apply Forall_forall. intros p Hin.
  apply In_nth_error in Hin. destruct Hin as [i Hi].
  destruct (Hp i p Hi) as [_ ->].
  do 3 eexists. apply at_position_make_point.
Qed.

Lemma scaled_from_class (argv : list string) (sf : pyfloat) (zi : R)
    (unscaled : list (R * R)) :
  forall z, Forall (fun p => built_by_script p = test_in argv)
                   (scaled_from argv sf zi unscaled z).
Proof.
  induction unscaled as [|[x y] rest IH]; intros z; cbn [scaled_from]; constructor.
  - unfold make_point. destruct (test_in argv); reflexivity.
  - apply IH.
Qed.

(** X12.  Every point of a returned sequence is built with the script's own
    [Point3D] class when ['test'] is in [sys.argv], and with the host's
    [adsk.core.Point3D] when it is not: a sequence never mixes the two. *)
Theorem points_share_one_class (argv : list string) (num_points : Z)
    (scale turns height : R) :
  on_return (generate_fibonacci_points argv num_points scale turns height)
    (Forall (fun p => built_by_script p = test_in argv)).
Proof.
  intros pts. unfold generate_fibonacci_points.
  destruct (pydiv 90 (2 * PI * turns) (IZR num_points)) as [ai|e]; [|discriminate].
  cbn [bind].
  destruct (fdiv 118 (Fin scale) (max_dimension_of (unscaled_loop num_points ai)))
    as [sf|e]; [|discriminate].
  cbn [bind].
  destruct (if (0 <? num_points)%Z then pydiv 121 height (IZR num_points) else Ok 0)
    as [zi|e]; [|discriminate].
  cbn [bind]. rewrite scaled_loop_from. intros E. injection E as <-.
  apply scaled_from_class.
Qed.

(** * Further properties of get_bounding_box *)

Lemma finite_list (l : list pyfloat) :
  Forall (fun v => exists r, v = Fin r) l -> exists rs, l = map Fin rs.
Proof.
  induction 1 as [|v l [r ->] _ [rs ->]].
  - exists []; reflexivity.
  - exists (r :: rs); reflexivity.
Qed.

Lemma planar_finite_lists (points : list point) :
  Forall planar_finite points ->
  exists xs ys, map px points = map Fin xs /\ map py points = map Fin ys.
Proof.
  intros HF.
  destruct (finite_list (map px points)) as [xs Ex].
  { apply Forall_map. eapply Forall_impl; [|exact HF].
    intros p [x [y [Hx _]]]. exists x; exact Hx. }
  destruct (finite_list (map py points)) as [ys Ey].
  { apply Forall_map. eapply Forall_impl; [|exact HF].
    intros p [x [y [_ Hy]]]. exists y; exact Hy. }
  exists xs, ys. auto.
Qed.

(** The box of finite points, through the extrema of their coordinates. *)
Lemma get_bounding_box_extrema (points : list point) (xs ys : list R) :
  points <> [] ->
  map px points = map Fin xs -> map py points = map Fin ys ->
  exists mx Mx my My,
    get_bounding_box points = Ok (Fin mx, Fin Mx, Fin my, Fin My)
    /\ is_min mx xs /\ is_max Mx xs /\ is_min my ys /\ is_max My ys.
Proof.
  intros Hne Ex Ey.
  assert (Hx : xs <> []).
  { intros ->. destruct points; [congruence | discriminate]. }
  assert (Hy : ys <> []).
  { intros ->. destruct points; [congruence | discriminate]. }
  destruct (min_of_Fin 32 _ Hx) as [mx [Emx Hmx]].
  destruct (max_of_Fin 33 _ Hx) as [Mx [EMx HMx]].
  destruct (min_of_Fin 34 _ Hy) as [my [Emy Hmy]].
  destruct (max_of_Fin 35 _ Hy) as [My [EMy HMy]].
  exists mx, Mx, my, My.
  split; [|auto].
  unfold get_bounding_box. destruct points as [|p rest]; [congruence|].
  rewrite Ex, Ey, Emx, EMx, Emy, EMy. reflexivity.
Qed.

Lemma In_Fin_map (points : list point) (f : point -> pyfloat) (rs : list R) (r : R) :
  map f points = map Fin rs ->
  (In r rs <-> exists p, In p points /\ f p = Fin r).
Proof.
  intros E. split.
  - intros Hr. apply (in_map Fin) in Hr. rewrite <- E in Hr.
    apply in_map_iff in Hr. destruct Hr as [p [Hp Hin]]. exists p; auto.
  - intros [p [Hin Hp]]. apply (in_map f) in Hin. rewrite E, Hp in Hin.
    apply in_map_iff in Hin. destruct Hin as [r' [Hr' Hin]].
    injection Hr' as ->. exact Hin.
Qed.

(** X13.  On a non-empty list of points with finite planar coordinates,
    [get_bounding_box] returns four finite bounds; every point lies within
    them and each bound is the coordinate of one of the points. *)
Theorem bounding_box_encloses_tightly (points : list point) :
  points <> [] -> Forall planar_finite points ->
  exists mx Mx my My,
    get_bounding_box points = Ok (Fin mx, Fin Mx, Fin my, Fin My)
    /\ (forall p, In p points ->
                  exists x y, px p = Fin x /\ py p = Fin y
                              /\ mx <= x <= Mx /\ my <= y <= My)
    /\ (exists p, In p points /\ px p = Fin mx)
    /\ (exists p, In p points /\ px p = Fin Mx)
    /\ (exists p, In p points /\ py p = Fin my)
    /\ (exists p, In p points /\ py p = Fin My).
Proof.
  intros Hne HF.
  destruct (planar_finite_lists points HF) as [xs [ys [Ex Ey]]].
  destruct (get_bounding_box_extrema points xs ys Hne Ex Ey)
    as [mx [Mx [my [My [E [[Imx Lmx] [[IMx LMx] [[Imy Lmy] [IMy LMy]]]]]]]]].
  exists mx, Mx, my, My. split; [exact E|]. split.
  - intros p Hp. rewrite Forall_forall in HF.
    destruct (HF p Hp) as [x [y [Hx Hy]]]. exists x, y.
    split; [exact Hx|]. split; [exact Hy|].
    assert (In x xs) by (apply (In_Fin_map points px xs x Ex); exists p; auto).
    assert (In y ys) by (apply (In_Fin_map points py ys y Ey); exists p; auto).
    repeat split; auto.
  - repeat split.
    + apply (In_Fin_map points px xs mx Ex); exact Imx.
    + apply (In_Fin_map points px xs Mx Ex); exact IMx.
    + apply (In_Fin_map points py ys my Ey); exact Imy.
    + apply (In_Fin_map points py ys My Ey); exact IMy.
Qed.

Lemma bounding_box_encloses_tightly_witness :
  let points := [Point3D (Fin 1) (Fin 5) (Fin 0); Point3D (Fin (-2)) (Fin 3) (Fin 0)] in
  points <> [] /\ Forall planar_finite points /\
  exists mx Mx my My,
    get_bounding_box points = Ok (Fin mx, Fin Mx, Fin my, Fin My)
    /\ (forall p, In p points ->
                  exists x y, px p = Fin x /\ py p = Fin y
                              /\ mx <= x <= Mx /\ my <= y <= My)
    /\ (exists p, In p points /\ px p = Fin mx)
    /\ (exists p, In p points /\ px p = Fin Mx)
    /\ (exists p, In p points /\ py p = Fin my)
    /\ (exists p, In p points /\ py p = Fin My).
Proof.
  intros points.
  assert (Hne : points <> []) by discriminate.
  assert (HF : Forall planar_finite points).
  { repeat constructor; do 2 eexists; split; reflexivity. }
  split; [exact Hne|]. split; [exact HF|].
  exact (bounding_box_encloses_tightly points Hne HF).
Defined.

(** X14.  [get_bounding_box] never raises, whatever the coordinates: the
    guard of line 29 keeps [min] and [max] away from an empty list, for
    which it returns the box [(0, 0, 0, 0)]. *)
Theorem get_bounding_box_never_raises (points : list point) :
  returns (get_bounding_box points)
  /\ (points = [] -> get_bounding_box points = Ok (Fin 0, Fin 0, Fin 0, Fin 0)).
Proof.
  split.
  - destruct points as [|p rest]; eexists; reflexivity.
  - intros ->. reflexivity.
Qed.

Lemma is_min_same_elements (l l' : list R) (m : R) :
  (forall x, In x l <-> In x l') -> is_min m l -> is_min m l'.
Proof.
  intros H [Hin Hle]. split; [apply H; exact Hin|].
  intros x Hx. apply Hle, H, Hx.
Qed.

Lemma is_max_same_elements (l l' : list R) (m : R) :
  (forall x, In x l <-> In x l') -> is_max m l -> is_max m l'.
Proof.
  intros H [Hin Hle]. split; [apply H; exact Hin|].
  intros x Hx. apply Hle, H, Hx.
Qed.

Lemma same_elements_of_permutation (points points' : list point)
    (f : point -> pyfloat) (rs rs' : list R) :
  Permutation points points' ->
  map f points = map Fin rs -> map f points' = map Fin rs' ->
  forall x, In x rs <-> In x rs'.
Proof.
  intros HP E E' x.
  rewrite (In_Fin_map points f rs x E), (In_Fin_map points' f rs' x E').
  split; intros [p [Hin Hp]]; exists p; split; try exact Hp.
  - eapply Permutation_in; [exact HP | exact Hin].
  - eapply Permutation_in; [apply Permutation_sym; exact HP | exact Hin].
Qed.

(** X15.  On points with finite planar coordinates the box does not depend
    on the order of the points. *)
Theorem bounding_box_ignores_order (points points' : list point) :
  Forall planar_finite points -> Permutation points points' ->
  get_bounding_box points = get_bounding_box points'.
Proof.
  intros HF HP.
  destruct points as [|p0 rest].
  { apply Permutation_nil in HP. subst. reflexivity. }
  assert (Hne : p0 :: rest <> []) by discriminate.
  assert (Hne' : points' <> []).
  { intros ->. apply Permutation_sym, Permutation_nil in HP. discriminate. }
  assert (HF' : Forall planar_finite points').
  { eapply Permutation_Forall; [exact HP | exact HF]. }
  destruct (planar_finite_lists _ HF) as [xs [ys [Ex Ey]]].
  destruct (planar_finite_lists _ HF') as [xs' [ys' [Ex' Ey']]].
  destruct (get_bounding_box_extrema _ xs ys Hne Ex Ey)
    as [mx [Mx [my [My [E [Hmx [HMx [Hmy HMy]]]]]]]].
  destruct (get_bounding_box_extrema _ xs' ys' Hne' Ex' Ey')
    as [mx' [Mx' [my' [My' [E' [Hmx' [HMx' [Hmy' HMy']]]]]]]].
  pose proof (same_elements_of_permutation _ _ px xs xs' HP Ex Ex') as Sx.
  pose proof (same_elements_of_permutation _ _ py ys ys' HP Ey Ey') as Sy.
  rewrite E, E'.
  rewrite (is_min_unique _ _ _ Hmx' (is_min_same_elements _ _ _ Sx Hmx)).
  rewrite (is_max_unique _ _ _ HMx' (is_max_same_elements _ _ _ Sx HMx)).
  rewrite (is_min_unique _ _ _ Hmy' (is_min_same_elements _ _ _ Sy Hmy)).
  rewrite (is_max_unique _ _ _ HMy' (is_max_same_elements _ _ _ Sy HMy)).
  reflexivity.
Qed.

Lemma bounding_box_ignores_order_witness :
  let p := Point3D (Fin 1) (Fin 5) (Fin 0) in
  let q := Point3D (Fin (-2)) (Fin 3) (Fin 0) in
  Forall planar_finite [p; q] /\ Permutation [p; q] [q; p] /\
  get_bounding_box [p; q] = get_bounding_box [q; p].
Proof.
  intros p q.
  assert (HF : Forall planar_finite [p; q]).
  { repeat constructor; do 2 eexists; split; reflexivity. }
  assert (HP : Permutation [p; q] [q; p]) by apply perm_swap.
  split; [exact HF|]. split; [exact HP|].
  exact (bounding_box_ignores_order [p; q] [q; p] HF HP).
Defined.

Lemma py_min_NaN_r (a : pyfloat) : py_min a NaN = a.
Proof. unfold py_min. destruct a; reflexivity. Qed.

Lemma py_max_NaN_r (a : pyfloat) : py_max a NaN = a.
Proof. unfold py_max, fgt. destruct a; reflexivity. Qed.

Lemma fold_py_min_NaN (l : list pyfloat) : fold_left py_min l NaN = NaN.
Proof.
  induction l as [|b l IH]; [reflexivity|]. cbn [fold_left].
  replace (py_min NaN b) with NaN by (destruct b; reflexivity). exact IH.
Qed.

Lemma fold_py_max_NaN (l : list pyfloat) : fold_left py_max l NaN = NaN.
Proof.
  induction l as [|b l IH]; [reflexivity|]. cbn [fold_left].
  replace (py_max NaN b) with NaN by (destruct b; reflexivity). exact IH.
Qed.

Lemma fold_py_min_skips_NaN (l1 l2 : list pyfloat) (a : pyfloat) :
  fold_left py_min (l1 ++ NaN :: l2) a = fold_left py_min (l1 ++ l2) a.
Proof. rewrite !fold_left_app. cbn [fold_left]. rewrite py_min_NaN_r. reflexivity. Qed.

Lemma fold_py_max_skips_NaN (l1 l2 : list pyfloat) (a : pyfloat) :
  fold_left py_max (l1 ++ NaN :: l2) a = fold_left py_max (l1 ++ l2) a.
Proof. rewrite !fold_left_app. cbn [fold_left]. rewrite py_max_NaN_r. reflexivity. Qed.

(** X16.  A not-a-number is treated by position: in the first point it
    becomes both bounds of its axis, whatever follows; in a later point it is
    skipped, and the box is the one of the other points. *)
Theorem bounding_box_and_nan (p q : point) (rest rest' : list point) :
  (px p = NaN ->
   exists my My, get_bounding_box (p :: rest) = Ok (NaN, NaN, my, My))
  /\ (px q = NaN -> py q = NaN ->
      get_bounding_box (p :: rest ++ q :: rest') = get_bounding_box (p :: rest ++ rest')).
Proof.
  split.
  - intros Hp. unfold get_bounding_box. cbn [map min_of max_of bind].
    rewrite Hp, fold_py_min_NaN, fold_py_max_NaN. do 2 eexists. reflexivity.
  - intros Hx Hy. unfold get_bounding_box.
    cbn [app map min_of max_of bind].
    rewrite !map_app. cbn [map]. rewrite Hx, Hy.
    rewrite !fold_py_min_skips_NaN, !fold_py_max_skips_NaN. reflexivity.
Qed.

(** * Further properties of the self-test *)

Lemma passing_case_goes_on (argv : list string) (c : test_case) :
  regular c -> case_within_tolerance argv c -> test_case_body argv c = Ok None.
Proof.
  intros Hreg Hok.
  destruct (test_case_body_spec argv c Hreg) as [[E _]|[out [_ [_ Hbad]]]];
    [exact E | contradiction].
Qed.

(** X19.  The self-test catches nothing: when the cases before it pass, a
    case on which the generator raises ends the run with that exception, and
    neither a verdict nor a line is produced. *)
Theorem self_test_propagates_exceptions (argv : list string)
    (pre post : list test_case) (num_points : Z) (scale turns height : R) (e : exn) :
  Forall regular pre -> Forall (case_within_tolerance argv) pre ->
  generate_fibonacci_points argv num_points scale turns height = Raise e ->
  test_loop argv (pre ++ (num_points, scale, turns, height) :: post) = Raise e.
Proof.
  intros Hreg Hok Hraise.
  induction pre as [|c pre IH]; cbn [app test_loop].
  - unfold test_case_body. rewrite Hraise. reflexivity.
  - inversion Hreg as [|? ? Hc Hreg']; subst.
    inversion Hok as [|? ? Hc' Hok']; subst.
    rewrite (passing_case_goes_on argv c Hc Hc'). cbn [bind].
    apply IH; assumption.
Qed.

Lemma self_test_propagates_exceptions_witness :
  Forall regular [] /\ Forall (case_within_tolerance ["test"%string]) [] /\
  generate_fibonacci_points ["test"%string] 1 100 1 0 = Raise (ZeroDivisionError 118) /\
  test_loop ["test"%string] ([] ++ (1%Z, 100, 1, 0) :: test_cases)
  = Raise (ZeroDivisionError 118).
Proof.
  assert (Hg : generate_fibonacci_points ["test"%string] 1 100 1 0
               = Raise (ZeroDivisionError 118)) by apply generate_one_raises.
  split; [constructor|]. split; [constructor|]. split; [exact Hg|].
  exact (self_test_propagates_exceptions ["test"%string] [] test_cases 1 100 1 0 _
           (Forall_nil _) (Forall_nil _) Hg).
Defined.

(** * The execute handler *)

Lemma collect_from (points : list point) :
  forall acc, fold_left (fun c p => c ++ [p]) points acc = acc ++ points.
Proof.
  induction points as [|p rest IH]; intros acc; cbn [fold_left].
  - rewrite app_nil_r. reflexivity.
  - rewrite IH, <- app_assoc. reflexivity.
Qed.

Lemma collect_all (points : list point) : collect points = points.
Proof. unfold collect. rewrite collect_from. reflexivity. Qed.

(** The line drawn for the index [i]. *)
Lemma flat_map_of_nat {B : Type} (f : Z -> list B) (l : list nat) :
  flat_map f (map Z.of_nat l) = flat_map (fun i => f (Z.of_nat i)) l.
Proof.
  induction l as [|i l IH]; cbn [map flat_map]; [reflexivity|].
  rewrite IH. reflexivity.
Qed.

Lemma flat_map_shift {B : Type} (f : nat -> list B) (k : nat) :
  forall s, flat_map f (seq (S s) k) = flat_map (fun i => f (S i)) (seq s k).
Proof.
  induction k as [|k IH]; intros s; cbn [seq flat_map]; [reflexivity|].
  rewrite IH. reflexivity.
Qed.

Lemma draw_lines_by_index (points : list point) :
  draw_lines points
  = flat_map
      (fun i =>
         match nth_error points i, nth_error points (S i) with
         | Some p, Some q => [sketchLines_addByTwoPoints p q]
         | _, _ => []
         end)
      (seq 0 (length points - 1)).
Proof.
  unfold draw_lines, range. rewrite flat_map_of_nat.
  replace (Z.to_nat (Z.of_nat (length points) - 1)) with (length points - 1)%nat by lia.
  apply flat_map_ext. intros i.
  replace (Z.to_nat (Z.of_nat i)) with i by lia.
  replace (Z.to_nat (Z.of_nat i + 1)) with (S i) by lia.
  reflexivity.
Qed.

Lemma draw_lines_consecutive (points : list point) :
  draw_lines points
  = map (fun pq => sketchLines_addByTwoPoints (fst pq) (snd pq)) (consecutive points).
Proof.
  rewrite draw_lines_by_index.
  induction points as [|p rest IH]; [reflexivity|].
  destruct rest as [|q rest']; [reflexivity|].
  cbn [length consecutive map].
  replace (S (S (length rest')) - 1)%nat with (S (length (q :: rest') - 1))
    by (cbn [length]; lia).
  cbn [seq flat_map]. rewrite flat_map_shift.
  cbn [nth_error app fst snd]. f_equal. exact IH.
Qed.

Lemma consecutive_length {A : Type} (l : list A) :
  length (consecutive l) = (length l - 1)%nat.
Proof.
  induction l as [|p rest IH]; [reflexivity|].
  destruct rest as [|q rest']; [reflexivity|].
  cbn [consecutive length] in *. rewrite IH. lia.
Qed.

Lemma consecutive_nth {A : Type} (l : list A) :
  forall i p q,
    nth_error (consecutive l) i = Some (p, q)
    <-> nth_error l i = Some p /\ nth_error l (S i) = Some q.
Proof.
  induction l as [|a rest IH]; intros i p q.
  - cbn [consecutive]. destruct i; split; try discriminate; intros [? ?]; discriminate.
  - destruct rest as [|b rest'].
    + cbn [consecutive]. destruct i as [|i]; split; try discriminate.
      * intros [_ H]; discriminate.
      * intros [H _]. destruct i; discriminate.
    + cbn [consecutive]. destruct i as [|i].
      * cbn [nth_error]. split.
        -- intros H; injection H as <- <-. auto.
        -- intros [H1 H2]; injection H1 as <-; injection H2 as <-. reflexivity.
      * cbn [nth_error]. rewrite IH. cbn [nth_error]. reflexivity.
Qed.

(** X20.  Without splines the handler draws [len(points) - 1] lines, none
    for fewer than two points; the line of index [i] goes from the point of
    index [i] to the point of index [i + 1], so the lines form one open
    chain through the points in order. *)
Theorem lines_chain_the_points (points : list point) :
  length (draw_lines points) = (length points - 1)%nat
  /\ forall i p q,
       nth_error (draw_lines points) i = Some (sketchLines_addByTwoPoints p q)
       <-> nth_error points i = Some p /\ nth_error points (S i) = Some q.
Proof.
  rewrite draw_lines_consecutive. split.
  - rewrite length_map. apply consecutive_length.
  - intros i p q. rewrite <- consecutive_nth, nth_error_map.
    destruct (nth_error (consecutive points) i) as [[p' q']|]; cbn [option_map fst snd].
    + split; intros H; injection H as <- <-; reflexivity.
    + split; discriminate.
Qed.

Lemma py_int_of_range (x : R) :
  in_range num_points_range x -> (10 <= py_int x <= 1000)%Z.
Proof.
  unfold in_range, num_points_range; cbn [minimumValue maximumValue].
  intros [Hlo Hhi]. unfold py_int.
  destruct (Rle_dec 0 x) as [_|N]; [|lra].
  destruct (base_Int_part x) as [Hle Hgt].
  split.
  - assert (H : (9 < Int_part x)%Z) by (apply lt_IZR; lra). lia.
  - apply le_IZR. lra.
Qed.

(** X21.  With an active document and input values within the bounds that
    [CommandCreatedHandler] declares, the generator returns
    [int(num_points)] points, between 10 and 1000 of them, and the handler
    adds one sketch, draws either one spline through all the points or the
    chain of lines, switches deferred computation off, and shows no message
    box. *)
Theorem execute_within_declared_ranges (argv : list string) (h : host)
    (inputs : command_inputs) :
  activeDocument h = true -> within_declared_ranges inputs ->
  let num_points := py_int (value_num_points inputs) in
  exists points,
    generate_fibonacci_points argv num_points (value_scale inputs)
      (value_turns inputs) (value_height inputs) = Ok points
    /\ (10 <= num_points <= 1000)%Z
    /\ length points = Z.to_nat num_points
    /\ execute_notify argv h inputs
       = sketches_add
         :: (if value_use_splines inputs
             then [sketchFittedSplines_add points]
             else draw_lines points)
         ++ [set_isComputeDeferred false].
Proof.
  intros Hdoc [Hn [_ [Ht _]]] num_points.
  pose proof (py_int_of_range _ Hn) as Hrange. fold num_points in Hrange.
  unfold in_range, turns_range in Ht; cbn [minimumValue maximumValue] in Ht.
  destruct (generate_total argv num_points (value_scale inputs)
              (value_turns inputs) (value_height inputs)) as [pts H]; [lia | lra |].
  exists pts. split; [exact H|]. split; [exact Hrange|]. split.
  - apply (generate_length argv num_points (value_scale inputs)
             (value_turns inputs) (value_height inputs)); [lia | exact H].
  - unfold execute_notify, execute_body. rewrite Hdoc. cbn [negb].
    fold num_points. rewrite H, collect_all. reflexivity.
Qed.

Lemma execute_within_declared_ranges_witness :
  let h := mkHost true true in
  let inputs := mkInputs 100 100 1 0 true in
  activeDocument h = true /\ within_declared_ranges inputs /\
  exists points,
    generate_fibonacci_points [] (py_int (value_num_points inputs))
      (value_scale inputs) (value_turns inputs) (value_height inputs) = Ok points
    /\ (10 <= py_int (value_num_points inputs) <= 1000)%Z
    /\ length points = Z.to_nat (py_int (value_num_points inputs))
    /\ execute_notify [] h inputs
       = sketches_add
         :: (if value_use_splines inputs
             then [sketchFittedSplines_add points]
             else draw_lines points)
         ++ [set_isComputeDeferred false].
Proof.
  intros h inputs.
  assert (Hdoc : activeDocument h = true) by reflexivity.
  assert (Hin : within_declared_ranges inputs).
  { unfold within_declared_ranges, in_range; cbn. repeat split; lra. }
  split; [exact Hdoc|]. split; [exact Hin|].
  exact (execute_within_declared_ranges [] h inputs Hdoc Hin).
Defined.

(** X22.  With an active document, when [int(num_points)] is 0 or 1, or
    [turns] is 0 with at least one point, the sketch has already been added
    when the generator raises: the handler leaves it empty, does not switch
    deferred computation off, and reports the [ZeroDivisionError] in a
    message box when [ui] is there; the exception does not leave the
    handler. *)
Theorem execute_leaves_empty_sketch (argv : list string) (h : host)
    (inputs : command_inputs) :
  activeDocument h = true ->
  let num_points := py_int (value_num_points inputs) in
  (0 <= num_points)%Z ->
  (num_points <= 1)%Z \/ value_turns inputs = 0 ->
  exists line,
    (line = (if (num_points =? 0)%Z then 90 else 118)%nat)
    /\ execute_notify argv h inputs
       = if ui h
         then [sketches_add;
               messageBox (Failed (GeneratorError (ZeroDivisionError line)))]
         else [sketches_add].
Proof.
  intros Hdoc num_points Hnn Hbad.
  exists (if (num_points =? 0)%Z then 90 else 118)%nat. split; [reflexivity|].
  assert (Hraise : generate_fibonacci_points argv num_points (value_scale inputs)
                     (value_turns inputs) (value_height inputs)
                   = Raise (ZeroDivisionError
                              (if (num_points =? 0)%Z then 90 else 118)%nat)).
  { apply generate_raises_iff_aux.
    destruct (Z.eqb_spec num_points 0) as [E0|N0]; [left; auto|].
    right. split; [lia|]. split; [|reflexivity].
    destruct Hbad as [Hle|Ht]; [left; lia | right; exact Ht]. }
  unfold execute_notify, execute_body. rewrite Hdoc. cbn [negb].
  fold num_points. rewrite Hraise. destruct (ui h); reflexivity.
Qed.

Lemma Int_part_IZR (z : Z) : Int_part (IZR z) = z.
Proof.
  unfold Int_part.
  rewrite <- (tech_up (IZR z) (z + 1)); [lia | |]; rewrite plus_IZR; lra.
Qed.

(** [int] gives back the integer a float was made from. *)
Lemma py_int_IZR (z : Z) : py_int (IZR z) = z.
Proof.
  unfold py_int. destruct (Rle_dec 0 (IZR z)) as [_|_].
  - apply Int_part_IZR.
  - rewrite <- opp_IZR, Int_part_IZR. lia.
Qed.

Lemma execute_leaves_empty_sketch_witness :
  let h := mkHost true true in
  let inputs := mkInputs (IZR 1) 100 1 0 false in
  activeDocument h = true /\
  (0 <= py_int (value_num_points inputs))%Z /\
  ((py_int (value_num_points inputs) <= 1)%Z \/ value_turns inputs = 0) /\
  exists line,
    (line = (if (py_int (value_num_points inputs) =? 0)%Z then 90 else 118)%nat)
    /\ execute_notify [] h inputs
       = if ui h
         then [sketches_add;
               messageBox (Failed (GeneratorError (ZeroDivisionError line)))]
         else [sketches_add].
Proof.
  intros h inputs.
  assert (Hdoc : activeDocument h = true) by reflexivity.
  assert (E : py_int (value_num_points inputs) = 1%Z) by apply py_int_IZR.
  assert (Hnn : (0 <= py_int (value_num_points inputs))%Z) by (rewrite E; lia).
  assert (Hbad : (py_int (value_num_points inputs) <= 1)%Z \/ value_turns inputs = 0)
    by (left; rewrite E; lia).
  split; [exact Hdoc|]. split; [exact Hnn|]. split; [exact Hbad|].
  exact (execute_leaves_empty_sketch [] h inputs Hdoc Hnn Hbad).
Defined.

Lemma draw_lines_only_lines (points : list point) (c : host_call) :
  In c (draw_lines points) -> exists p q, c = sketchLines_addByTwoPoints p q.
Proof.
  rewrite draw_lines_consecutive. intros H.
  apply in_map_iff in H. destruct H as [[p q] [<- _]]. exists p, q. reflexivity.
Qed.

(** X23.  What the execute handler never does.  Without an active document
    it neither calls the generator nor touches a sketch: it shows the message
    of line 206 when [ui] is there and does nothing otherwise.  And a run
    that shows a message box has drawn nothing: beside the message, the only
    call it can have made is the one that added the sketch. *)
Theorem execute_never_draws_and_reports (argv : list string) (h : host)
    (inputs : command_inputs) :
  (activeDocument h = false ->
   execute_notify argv h inputs
   = if ui h then [messageBox NoActiveDocument] else [])
  /\ forall text c,
       In (messageBox text) (execute_notify argv h inputs) ->
       In c (execute_notify argv h inputs) ->
       c = messageBox text \/ c = sketches_add.
Proof.
  split.
  - intros Hdoc. unfold execute_notify, execute_body. rewrite Hdoc. cbn [negb].
    destruct (ui h); reflexivity.
  - intros text c. unfold execute_notify, execute_body.
    destruct (activeDocument h); cbn [negb].
    + destruct (generate_fibonacci_points argv (py_int (value_num_points inputs))
                  (value_scale inputs) (value_turns inputs) (value_height inputs))
        as [pts|e].
      * intros Hm _. exfalso.
        destruct Hm as [Hm|Hm]; [discriminate|].
        apply in_app_or in Hm. destruct Hm as [Hm|[Hm|[]]]; [|discriminate].
        destruct (value_use_splines inputs).
        -- destruct Hm as [Hm|[]]. discriminate.
        -- apply draw_lines_only_lines in Hm. destruct Hm as [p [q Hm]]. discriminate.
      * destruct (ui h); cbn [app].
        -- intros [Hm|[Hm|[]]] [Hc|[Hc|[]]]; try discriminate; subst; auto.
        -- intros [Hm|[]]. discriminate.
    + destruct (ui h).
      * intros [Hm|[]] [Hc|[]]. subst. auto.
      * intros [].
Qed.

(** * The generator and sys.argv *)






(** * The range of math.pow *)

(** Where the power stays in range the checked step is the exact one. *)
Lemma checked_step_in_range (ai : R) (st : extent) (i : Z) :
  Rpower phi (2 * (IZR i * ai) / PI) < FloatRange.overflow_threshold ->
  FloatRange.unscaled_step ai st i = Ok (unscaled_step ai st i).
Proof.
  intros Hlt. unfold FloatRange.unscaled_step, FloatRange.math_pow.
  destruct (Rle_dec FloatRange.overflow_threshold (Rpower phi (2 * (IZR i * ai) / PI)))
    as [Hle|_]; [lra|].
  reflexivity.
Qed.

Lemma checked_step_out_of_range (ai : R) (st : extent) (i : Z) :
  FloatRange.overflow_threshold <= Rpower phi (2 * (IZR i * ai) / PI) ->
  FloatRange.unscaled_step ai st i = Raise (OverflowError 101).
Proof.
  intros Hle. unfold FloatRange.unscaled_step, FloatRange.math_pow.
  destruct (Rle_dec FloatRange.overflow_threshold (Rpower phi (2 * (IZR i * ai) / PI)))
    as [_|N]; [reflexivity | contradiction].
Qed.

(** The checked loop raises [OverflowError] at line 101, or is the exact
    loop. *)
Lemma checked_loop_from (ai : R) (indices : list Z) :
  forall st,
    FloatRange.unscaled_loop_from ai indices st = Raise (OverflowError 101)
    \/ FloatRange.unscaled_loop_from ai indices st
       = Ok (fold_left (unscaled_step ai) indices st).
Proof.
  induction indices as [|i rest IH]; intros st; cbn [FloatRange.unscaled_loop_from fold_left].
  - right; reflexivity.
  - destruct (Rle_lt_dec FloatRange.overflow_threshold (Rpower phi (2 * (IZR i * ai) / PI)))
      as [Hle|Hlt].
    + rewrite checked_step_out_of_range by exact Hle. left; reflexivity.
    + rewrite checked_step_in_range by exact Hlt. cbn [bind]. apply IH.
Qed.

Lemma checked_loop_from_in_range (ai : R) (indices : list Z) :
  (forall i, In i indices ->
             Rpower phi (2 * (IZR i * ai) / PI) < FloatRange.overflow_threshold) ->
  forall st,
    FloatRange.unscaled_loop_from ai indices st
    = Ok (fold_left (unscaled_step ai) indices st).
Proof.
  induction indices as [|i rest IH]; intros Hin st;
    cbn [FloatRange.unscaled_loop_from fold_left]; [reflexivity|].
  rewrite checked_step_in_range by (apply Hin; left; reflexivity).
  cbn [bind]. apply IH. intros j Hj. apply Hin. right; exact Hj.
Qed.

Lemma checked_loop_from_out_of_range (ai : R) (indices : list Z) (i : Z) :
  In i indices ->
  FloatRange.overflow_threshold <= Rpower phi (2 * (IZR i * ai) / PI) ->
  forall st, FloatRange.unscaled_loop_from ai indices st = Raise (OverflowError 101).
Proof.
  intros Hin Hle.
  induction indices as [|j rest IH]; intros st; [destruct Hin|].
  cbn [FloatRange.unscaled_loop_from].
  destruct (Rle_lt_dec FloatRange.overflow_threshold (Rpower phi (2 * (IZR j * ai) / PI)))
    as [Hj|Hj].
  - rewrite checked_step_out_of_range by exact Hj. reflexivity.
  - rewrite checked_step_in_range by exact Hj. cbn [bind].
    destruct Hin as [->|Hin]; [lra|]. apply IH. exact Hin.
Qed.

(** Whatever the checked generator returns, the exact one returns too. *)
Lemma checked_generate_refines (argv : list string) (n : Z) (scale turns height : R) :
  FloatRange.generate_fibonacci_points argv n scale turns height
  = Raise (OverflowError 101)
  \/ FloatRange.generate_fibonacci_points argv n scale turns height
     = generate_fibonacci_points argv n scale turns height.
Proof.
  unfold FloatRange.generate_fibonacci_points, generate_fibonacci_points.
  destruct (pydiv 90 (2 * PI * turns) (IZR n)) as [ai|e]; [|right; reflexivity].
  cbn [bind]. unfold FloatRange.unscaled_loop.
  destruct (checked_loop_from ai (range n) extent0) as [E|E]; rewrite E.
  - left; reflexivity.
  - right; reflexivity.
Qed.

Lemma phi_lt_2 : phi < 2.
Proof.
  unfold phi.
  assert (H : sqrt 5 < 3).
  { rewrite <- (sqrt_Rsqr 3) by lra. apply sqrt_lt_1_alt. unfold Rsqr. lra. }
  lra.
Qed.

Lemma phi_ge_8_5 : 8 / 5 <= phi.
Proof.
  unfold phi.
  assert (H : 11 / 5 <= sqrt 5).
  { rewrite <- (sqrt_Rsqr (11 / 5)) by lra. apply sqrt_le_1_alt. unfold Rsqr. lra. }
  lra.
Qed.

Lemma threshold_below_pow_1024 : FloatRange.overflow_threshold < 2 ^ 1024.
Proof.
  unfold FloatRange.overflow_threshold.
  assert (H : 0 < 2 ^ 970) by (apply pow_lt; lra).
  set (a := 2 ^ 1024) in *. set (b := 2 ^ 970) in *. lra.
Qed.

Lemma pow_40_below_threshold : 2 ^ 40 < FloatRange.overflow_threshold.
Proof.
  unfold FloatRange.overflow_threshold.
  assert (H1 : 2 ^ 40 <= 2 ^ 970) by (apply Rle_pow; [lra | lia]).
  assert (H2 : 2 ^ (970 + 1) < 2 ^ 1024) by (apply Rlt_pow; [lra | lia]).
  rewrite pow_add, pow_1 in H2.
  set (a := 2 ^ 1024) in *. set (b := 2 ^ 970) in *. set (c := 2 ^ 40) in *. lra.
Qed.

(** Up to the exponent 40 the power of [phi] is in range. *)
Lemma power_in_range (e : R) :
  0 <= e <= 40 -> Rpower phi e < FloatRange.overflow_threshold.
Proof.
  intros [H0 H40].
  apply Rle_lt_trans with (2 ^ 40); [|apply pow_40_below_threshold].
  apply Rle_trans with (Rpower 2 e).
  - apply Rle_Rpower_l; [exact H0|]. pose proof phi_gt_1. pose proof phi_lt_2. lra.
  - rewrite <- (Rpower_pow 40 2) by lra.
    apply Rle_Rpower; [lra|].
    replace (INR 40) with 40 by (rewrite INR_IZR_INZ; reflexivity). exact H40.
Qed.

(** At the exponent 1584 it is not. *)
Lemma power_out_of_range : FloatRange.overflow_threshold <= Rpower phi 1584.
Proof.
  apply Rle_trans with (2 ^ 1024); [left; apply threshold_below_pow_1024|].
  apply Rle_trans with (Rpower (8 / 5) 1584).
  2:{ apply Rle_Rpower_l; [lra|]. pose proof phi_ge_8_5. lra. }
  replace 1584 with (INR 1584) by (rewrite INR_IZR_INZ; reflexivity).
  rewrite Rpower_pow by lra.
  replace 1584%nat with (3 * 528)%nat by reflexivity.
  rewrite pow_mult.
  apply Rle_trans with ((2 ^ 2) ^ 528).
  - rewrite <- pow_mult. apply Rle_pow; [lra | lia].
  - apply pow_incr. simpl. lra.
Qed.

Lemma In_range (n i : Z) : In i (range n) -> (0 <= i < n)%Z.
Proof.
  unfold range. intros H. apply in_map_iff in H. destruct H as [k [<- Hk]].
  apply in_seq in Hk. lia.
Qed.

Lemma range_In (n i : Z) : (0 <= i < n)%Z -> In i (range n).
Proof.
  intros H. unfold range. apply in_map_iff. exists (Z.to_nat i).
  split; [lia|]. apply in_seq. lia.
Qed.

(** With [turns] between 0 and 10 the checked generator is the exact one. *)
Lemma checked_loop_in_declared_range (n : Z) (turns : R) :
  (0 < n)%Z -> 0 <= turns <= 10 ->
  FloatRange.unscaled_loop n (2 * PI * turns / IZR n)
  = Ok (unscaled_loop n (2 * PI * turns / IZR n)).
Proof.
  intros Hn [Ht0 Ht10]. unfold FloatRange.unscaled_loop, unscaled_loop.
  apply checked_loop_from_in_range. intros i Hi. apply In_range in Hi.
  assert (Hpos : 0 < IZR n) by (apply IZR_lt; exact Hn).
  assert (Hi0 : 0 <= IZR i) by (apply IZR_le; lia).
  assert (Hin : IZR i <= IZR n) by (apply IZR_le; lia).
  pose proof PI_RGT_0 as Hpi.
  replace (2 * (IZR i * (2 * PI * turns / IZR n)) / PI)
    with (4 * turns * (IZR i / IZR n)) by (field; split; lra).
  apply power_in_range.
  assert (Hq0 : 0 <= IZR i / IZR n).
  { unfold Rdiv. apply Rmult_le_pos; [exact Hi0|]. left. apply Rinv_0_lt_compat. exact Hpos. }
  assert (Hq1 : IZR i / IZR n <= 1).
  { apply Rmult_le_reg_r with (IZR n); [exact Hpos|].
    unfold Rdiv. rewrite Rmult_assoc, Rinv_l by lra. lra. }
  split; nra.
Qed.

(** C10, as claimed, fails: with 100 points and 400 turns the radius of
    line 101 leaves the range of the floats and the call raises
    [OverflowError], although [num_points >= 2] and [turns > 0]. *)
Lemma many_turns_overflow :
  (2 <= 100)%Z /\ 0 < 400
  /\ FloatRange.generate_fibonacci_points ["test"%string] 100 1 400 0
     = Raise (OverflowError 101).
Proof.
  split; [lia|]. split; [lra|].
  unfold FloatRange.generate_fibonacci_points.
  rewrite angle_increment_ok by lia. cbn [bind].
  unfold FloatRange.unscaled_loop.
  rewrite (checked_loop_from_out_of_range _ _ 99); [reflexivity | apply range_In; lia |].
  pose proof PI_RGT_0 as Hpi.
  replace (2 * (99 * (2 * PI * 400 / 100)) / PI) with 1584 by (field; lra).
  apply power_out_of_range.
Qed.

(** C10, amended.  For [num_points >= 2] and [turns] within the bounds the
    command declares for it at lines 162-163, [0.1 <= turns <= 10], the
    point of index 0 is [(1, 0)], the point of index 1 is another one, no
    power leaves the range of the floats, the unscaled extent is positive,
    and the call returns for every [scale] and [height]. *)
Theorem max_dimension_is_positive (argv : list string) (num_points : Z)
    (scale turns height : R) :
  (2 <= num_points)%Z -> 1 / 10 <= turns <= 10 ->
  let angle_increment := 2 * PI * turns / IZR num_points in
  unscaled_point angle_increment 0 = (1, 0)
  /\ unscaled_point angle_increment 1 <> (1, 0)
  /\ (exists d, FloatRange.unscaled_max_dimension num_points turns = Ok (Fin d)
                /\ 0 < d)
  /\ returns (FloatRange.generate_fibonacci_points argv num_points scale turns height).
Proof.
  intros Hn [Hlo Hhi] ai.
  assert (Hai : ai <> 0) by (apply angle_increment_neq_0; [lia | lra]).
  assert (Hloop : FloatRange.unscaled_loop num_points ai = Ok (unscaled_loop num_points ai))
    by (apply checked_loop_in_declared_range; [lia | lra]).
  split; [apply unscaled_point_0|].
  split; [apply unscaled_point_1_neq; exact Hai|].
  split.
  - destruct (max_dimension_positive num_points ai Hn Hai) as [d [E Hd]].
    exists d; split; [|exact Hd].
    unfold FloatRange.unscaled_max_dimension. rewrite angle_increment_ok by lia.
    cbn [bind]. fold ai. rewrite Hloop. cbn [bind]. rewrite E. reflexivity.
  - destruct (generate_total argv num_points scale turns height) as [pts H];
      [exact Hn | lra |].
    exists pts. rewrite <- H.
    unfold FloatRange.generate_fibonacci_points, generate_fibonacci_points.
    rewrite angle_increment_ok by lia. cbn [bind]. fold ai. rewrite Hloop.
    reflexivity.
Qed.

Lemma max_dimension_is_positive_witness :
  (2 <= 2)%Z /\ 1 / 10 <= 1 <= 10 /\
  (unscaled_point (2 * PI * 1 / IZR 2) 0 = (1, 0)
   /\ unscaled_point (2 * PI * 1 / IZR 2) 1 <> (1, 0)
   /\ (exists d, FloatRange.unscaled_max_dimension 2 1 = Ok (Fin d) /\ 0 < d)
   /\ returns (FloatRange.generate_fibonacci_points ["test"%string] 2 5 1 0)).
Proof.
  split; [lia|]. split; [lra|].
  apply (max_dimension_is_positive ["test"%string] 2 5 1 0); [lia | lra].
Defined.

(** * The self-test on any table *)









(** C2.  The code at two points and [height = 1]: the heights returned are
    [0] and [1/2], so [max(z) - min(z)] is [1/2], not within 1% of [1]; and
    the script's own check of lines 66-77, which expects the z-range to be
    [height], fails on that call with the report of the heights. *)
Theorem z_range_not_within_one_percent :
  exists points,
    generate_fibonacci_points ["test"%string] 2 1 1 1 = Ok points
    /\ z_range points = Ok (Fin (1 / 2))
    /\ ~ within (1 * (1 / 100)) 1 (Fin (1 / 2))
    /\ test_case_body ["test"%string] (2%Z, 1, 1, 1)
       = Ok (Some [ FailedForHeight 1;
                    ExpectedHeight 1;
                    ActualHeight (Fin (1 / 2));
                    ZRange (Fin 0) (Fin (1 / 2)) ]).
Proof.
  assert (Hreg : regular (2%Z, 1, 1, 1)).
  { unfold regular. split; [lia|]. split; lra. }
  destruct (test_case_body_regular ["test"%string] 2 1 1 1 Hreg)
    as [pts [H [_ [Hz E]]]].
  assert (Hhalf : 1 - 1 / 2 = 1 / 2) by lra.
  exists pts. split; [exact H|]. split; [|split].
  - rewrite Hz by lra. rewrite Hhalf. reflexivity.
  - intros [v [Ev Hv]]. injection Ev as <-.
    unfold Rabs in Hv. destruct (Rcase_abs (1 / 2 - 1)); lra.
  - rewrite E, Hhalf.
    destruct (Rlt_dec 0 1) as [_|N]; [|lra].
    destruct (Rlt_dec (1 * (1 / 100)) (Rabs (1 / 2 - 1))) as [_|N]; [reflexivity|].
    exfalso. apply N. unfold Rabs. destruct (Rcase_abs (1 / 2 - 1)); lra.
Qed.

(** X18.  When the generator returns at least one point for a case with
    [scale > 0], the check of the box passes: the case is accepted when
    [height <= 0], and when [height > 0] it is accepted or rejected with the
    report of the heights, never with the report of the scale and never with
    an exception. *)
Theorem generated_case_fails_only_on_height (argv : list string) (num_points : Z)
    (scale turns height : R) :
  (1 <= num_points)%Z -> 0 < scale ->
  on_return (generate_fibonacci_points argv num_points scale turns height)
    (fun points =>
       (height <= 0 ->
        test_case_body argv (num_points, scale, turns, height) = Ok None)
       /\ (0 < height ->
           exists zr,
             z_range points = Ok (Fin zr)
             /\ (test_case_body argv (num_points, scale, turns, height) = Ok None
                 \/ test_case_body argv (num_points, scale, turns, height)
                    = Ok (Some [ FailedForHeight height;
                                 ExpectedHeight height;
                                 ActualHeight (Fin zr);
                                 ZRange (Fin 0) (Fin zr) ])))).
Proof.
  intros Hn Hs pts H.
  assert (Hreg : regular (num_points, scale, turns, height)).
  { unfold regular.
    destruct (Z.eq_dec num_points 1) as [->|H1].
    { rewrite generate_one_raises in H. discriminate. }
    split; [lia|]. split; [|exact Hs]. intros ->.
    rewrite generate_still_raises in H by lia. discriminate. }
  destruct (test_case_body_regular argv num_points scale turns height Hreg)
    as [pts' [H' [_ [Hz ->]]]].
  rewrite H in H'. apply result_Ok_inj in H'. subst pts'.
  split.
  - intros Hh. destruct (Rlt_dec 0 height) as [Hpos|_]; [lra | reflexivity].
  - intros Hh. exists (height - height / IZR num_points).
    split; [apply Hz; lra|].
    destruct (Rlt_dec 0 height) as [_|N]; [|contradiction].
    destruct (Rlt_dec (scale * (1 / 100))
                (Rabs (height - height / IZR num_points - height)));
      [right | left]; reflexivity.
Qed.

Lemma generated_case_fails_only_on_height_witness :
  (1 <= 2)%Z /\ 0 < 1 /\
  on_return (generate_fibonacci_points ["test"%string] 2 1 1 1)
    (fun points =>
       (1 <= 0 ->
        test_case_body ["test"%string] (2%Z, 1, 1, 1) = Ok None)
       /\ (0 < 1 ->
           exists zr,
             z_range points = Ok (Fin zr)
             /\ (test_case_body ["test"%string] (2%Z, 1, 1, 1) = Ok None
                 \/ test_case_body ["test"%string] (2%Z, 1, 1, 1)
                    = Ok (Some [ FailedForHeight 1;
                                 ExpectedHeight 1;
                                 ActualHeight (Fin zr);
                                 ZRange (Fin 0) (Fin zr) ])))).
Proof.
  split; [lia|]. split; [lra|].
  apply (generated_case_fails_only_on_height ["test"%string] 2 1 1 1); [lia | lra].
Defined.
